(** * survey_analysis.py: word, adjective and noun frequencies of survey answers

    A shallow embedding of [src/survey_analysis.py] and the properties of
    its specification.

    Modelling conventions.
    - A Python [str] is a [string]; its characters are read as the code
      points U+0000..U+00FF.  On that range [str.lower], [str.isspace]
      (shared by [str.strip] and the regex class [\s]) are the tables
      written out in [lower_char] and [is_space].
    - A spreadsheet cell is an [option string]: [None] is a missing value
      ([pd.isna]), [Some v] carries the text [str(cell)] of any other value.
    - The spaCy pipeline [nlp] is an external collaborator: it is a Section
      variable, a function from a text to its annotated tokens.
    - Python dictionaries keep insertion order, which the report relies on:
      they are association lists.
    - The global accumulators of the script are the fields of [State]; the
      row loop is a left fold of [process_cell] over the visited cells. *)

From Stdlib Require Import String Ascii List Arith ZArith Lia Bool Sorting.Sorted Permutation.
From Stdlib Require Import Numbers.DecimalString.
Import ListNotations.
Open Scope string_scope.
Open Scope list_scope.
Open Scope nat_scope.

(** ** Characters and strings *)

Module Str.

(** [str.isspace] on U+0000..U+00FF: TAB..CR, FS..US, SPACE, NEL, NBSP. *)
Definition is_space (c : ascii) : bool :=
  let n := nat_of_ascii c in
  (((9 <=? n) && (n <=? 13)) || ((28 <=? n) && (n <=? 32))
   || (n =? 133) || (n =? 160))%nat.

(** [str.lower] on one character of U+0000..U+00FF: A..Z, and the
    Latin-1 capitals U+00C0..U+00DE except the multiplication sign. *)
Definition lower_char (c : ascii) : ascii :=
  let n := nat_of_ascii c in
  if (((65 <=? n) && (n <=? 90))
      || ((192 <=? n) && (n <=? 222) && negb (n =? 215)))%nat
  then ascii_of_nat (n + 32) else c.

Fixpoint lower (s : string) : string :=
  match s with
  | "" => ""
  | String c s' => String (lower_char c) (lower s')
  end.

Fixpoint lstrip (s : string) : string :=
  match s with
  | "" => ""
  | String c s' => if is_space c then lstrip s' else s
  end.

Fixpoint rstrip (s : string) : string :=
  match s with
  | "" => ""
  | String c s' =>
      match rstrip s' with
      | "" => if is_space c then "" else String c ""
      | r => String c r
      end
  end.

(** [s.strip()] *)
Definition strip (s : string) : string := rstrip (lstrip s).

(** Truth value of a string: non-empty. *)
Definition truthy (s : string) : bool :=
  match s with "" => false | _ => true end.

(** Does [s] start with a character of class [p]? *)
Definition starts_with (p : ascii -> bool) (s : string) : bool :=
  match s with "" => false | String c _ => p c end.

(** [re.sub(r'\s+', ' ', s)]: every maximal run of whitespace becomes one
    space.  A whitespace character followed by another one is inside a
    run and is dropped; the last one of the run is replaced. *)
Fixpoint re_sub_ws (s : string) : string :=
  match s with
  | "" => ""
  | String c s' =>
      if is_space c then
        if starts_with is_space s' then re_sub_ws s'
        else String " " (re_sub_ws s')
      else String c (re_sub_ws s')
  end.

(** The character class [[,\s;]]. *)
Definition is_sep (c : ascii) : bool :=
  Ascii.eqb c "," || is_space c || Ascii.eqb c ";".

(** [re.split(r'[,\s;]+', s)]: the pieces between the maximal runs of
    separators, empty pieces at both ends included; never empty. *)
Fixpoint re_split (s : string) : list string :=
  match s with
  | "" => [""]
  | String c s' =>
      if is_sep c then
        if starts_with is_sep s' then re_split s'
        else "" :: re_split s'
      else
        match re_split s' with
        | p :: ps => String c p :: ps
        | [] => [String c ""]
        end
  end.

End Str.

(** ** Cells and the annotator *)

(** A cell of the data frame; [None] is NA. *)
Definition cell := option string.

(** [pd.isna] *)
Definition isna (c : cell) : bool :=
  match c with None => true | Some _ => false end.

(** A spaCy token, with the four attributes the script reads. *)
Record Token := mkToken {
  lemma_ : string;
  pos_ : string;
  is_alpha : bool;
  is_stop : bool
}.

(** The normalization step of [extract_adjectives] (line 29). *)
Definition normalize (v : string) : string :=
  Str.re_sub_ws (Str.strip (Str.lower v)).

(** [extract_adjectives] *)
Definition extract_adjectives (adj_string : cell) : list string :=
  match adj_string with
  | None => []
  | Some v =>
      let adj_string := normalize v in
      map Str.strip
          (filter (fun item => Str.truthy (Str.strip item))
                  (Str.re_split adj_string))
  end.

Section Annotated.

(** The loaded model: [nlp(text)] as the list of the document's tokens. *)
Variable nlp : string -> list Token.

(** [tokenize_description] *)
Definition tokenize_description (text : cell) : list string :=
  match text with
  | None => []
  | Some v =>
      let doc := nlp (Str.lower v) in
      map lemma_ (filter (fun token => is_alpha token && negb (is_stop token)) doc)
  end.

(** [filter_adjectives] *)
Fixpoint filter_adjectives (candidates : list string) : list string :=
  match candidates with
  | [] => []
  | candidate :: rest =>
      let doc := nlp candidate in
      if forallb (fun token => String.eqb (pos_ token) "ADJ") (filter is_alpha doc)
      then
        let lemma_candidate := String.concat " " (map lemma_ (filter is_alpha doc)) in
        lemma_candidate :: filter_adjectives rest
      else filter_adjectives rest
  end.

(** [extract_nouns] *)
Definition extract_nouns (text : cell) : list string :=
  match text with
  | None => []
  | Some v =>
      let doc := nlp (Str.lower v) in
      map lemma_
          (filter (fun token =>
                     is_alpha token && negb (is_stop token)
                     && (String.eqb (pos_ token) "NOUN" || String.eqb (pos_ token) "PROPN"))
                  doc)
  end.

End Annotated.

(** ** Dictionaries and counters *)

(** [d.get(k)] on an insertion-ordered dictionary. *)
Fixpoint dict_get {V : Type} (k : string) (d : list (string * V)) : option V :=
  match d with
  | [] => None
  | (k', v) :: d' => if String.eqb k k' then Some v else dict_get k d'
  end.

(** In-place update [d[k] = f(d[k])] of an entry.  The script only does
    this on keys created at initialisation ([keys_main] below); on an
    absent key, where Python raises [KeyError], [d] is returned as is. *)
Fixpoint dict_alter {V : Type} (f : V -> V) (k : string) (d : list (string * V))
  : list (string * V) :=
  match d with
  | [] => []
  | (k', v) :: d' =>
      if String.eqb k k' then (k', f v) :: d' else (k', v) :: dict_alter f k d'
  end.

(** [d[k] = v]: an existing key keeps its position, a new one goes last. *)
Fixpoint dict_set {V : Type} (k : string) (v : V) (d : list (string * V))
  : list (string * V) :=
  match d with
  | [] => [(k, v)]
  | (k', v') :: d' =>
      if String.eqb k k' then (k', v) :: d' else (k', v') :: dict_set k v d'
  end.

(** [d.update(new)] *)
Definition dict_update {V : Type} (d new : list (string * V)) : list (string * V) :=
  fold_left (fun d kv => dict_set (fst kv) (snd kv) d) new d.

Definition dict_keys {V : Type} (d : list (string * V)) : list string := map fst d.
Definition dict_values {V : Type} (d : list (string * V)) : list V := map snd d.

(** A [collections.Counter]: items in order of first insertion. *)
Definition counter := list (string * nat).

(** [self[elem] = self.get(elem, 0) + 1] *)
Fixpoint counter_add (elem : string) (c : counter) : counter :=
  match c with
  | [] => [(elem, 1)]
  | (k, n) :: c' =>
      if String.eqb elem k then (k, S n) :: c' else (k, n) :: counter_add elem c'
  end.

(** [Counter(iterable)] *)
Definition Counter (iterable : list string) : counter :=
  fold_left (fun c elem => counter_add elem c) iterable [].

(** One insertion of the stable descending sort: [p] came before every
    item of [l] in the input, so it goes in front of the first item whose
    count is not greater. *)
Fixpoint insert_desc (p : string * nat) (l : list (string * nat)) : list (string * nat) :=
  match l with
  | [] => [p]
  | q :: l' => if snd q <=? snd p then p :: l else q :: insert_desc p l'
  end.

(** [sorted(items, key=itemgetter(1), reverse=True)]; Python's sort is
    stable, also under [reverse=True]. *)
Definition sorted_desc (items : list (string * nat)) : list (string * nat) :=
  fold_right insert_desc [] items.

(** [c.most_common(n)] for an integer [n >= 0]: [heapq.nlargest(n, items,
    key=itemgetter(1))], that is [sorted(items, key=..., reverse=True)[:n]]. *)
Definition most_common (n : nat) (c : counter) : list (string * nat) :=
  firstn n (sorted_desc c).

(** ** The accumulators *)

(** [str(n)] of a natural number. *)
Definition str_of_nat (n : nat) : string := NilEmpty.string_of_uint (Nat.to_uint n).

(** The entry of one image in [image_results]. *)
Module Res.
Record t := mk { all_tokens : list string; adjectives : list string; nouns : list string }.
Definition extend_all_tokens (xs : list string) (r : t) : t :=
  mk (all_tokens r ++ xs) (adjectives r) (nouns r).
Definition extend_adjectives (xs : list string) (r : t) : t :=
  mk (all_tokens r) (adjectives r ++ xs) (nouns r).
Definition extend_nouns (xs : list string) (r : t) : t :=
  mk (all_tokens r) (adjectives r) (nouns r ++ xs).
End Res.

(** The entry of one column in [adj_stats]. *)
Module Stat.
Record t := mk { cells : nat; valid_cells : nat }.
Definition incr_cells (s : t) : t := mk (cells s + 1) (valid_cells s).
Definition incr_valid_cells (s : t) : t := mk (cells s) (valid_cells s + 1).
End Stat.

(** A row of the data frame, looked up by column name.  The frame has the
    seventeen columns of [columns]; the script reads [row[c]] only for the
    twelve names of [image_pairs]. *)
Definition Row := string -> cell.

Definition columns : list string :=
  ["Timestamp"; "PROLIFIC_ID";
   "Description_1"; "Adjectives_1"; "Description_2"; "Adjectives_2";
   "Description_3"; "Adjectives_3"; "Description_4"; "Adjectives_4";
   "Description_5"; "Adjectives_5"; "Description_6"; "Adjectives_6";
   "Familiarity_AI_Gen"; "AI_Art_Real"; "Education"].

(** [image_pairs] *)
Definition image_pairs : list (string * string) :=
  map (fun i => ("Description_" ++ str_of_nat i, "Adjectives_" ++ str_of_nat i)%string)
      (seq 1 6).

(** [enumerate(xs)] *)
Definition enumerate {A : Type} (xs : list A) : list (nat * A) :=
  combine (seq 0 (length xs)) xs.

(** [f"Image_{i+1}"] *)
Definition image_key (i : nat) : string := ("Image_" ++ str_of_nat (i + 1))%string.

(** The module-level variables that the row loop updates. *)
Record State := mkState {
  image_results : list (string * Res.t);
  all_tokens : list string;
  all_adjectives : list string;
  all_nouns : list string;
  adj_stats : list (string * Stat.t);
  overall_adj_cells : nat;
  overall_adj_valid_cells : nat
}.

(** Lines 63 to 71. *)
Definition init_state : State :=
  {| image_results := map (fun i => (image_key i, Res.mk [] [] [])) (seq 0 6);
     all_tokens := [];
     all_adjectives := [];
     all_nouns := [];
     adj_stats := map (fun i => (("Adjectives_" ++ str_of_nat i)%string, Stat.mk 0 0)) (seq 1 6);
     overall_adj_cells := 0;
     overall_adj_valid_cells := 0 |}.

(** The assignments of the loop body, one field each. *)
Definition upd_image (i : nat) (f : Res.t -> Res.t) (st : State) : State :=
  mkState (dict_alter f (image_key i) (image_results st))
          (all_tokens st) (all_adjectives st) (all_nouns st)
          (adj_stats st) (overall_adj_cells st) (overall_adj_valid_cells st).

Definition upd_adj_stats (adj_col : string) (f : Stat.t -> Stat.t) (st : State) : State :=
  mkState (image_results st) (all_tokens st) (all_adjectives st) (all_nouns st)
          (dict_alter f adj_col (adj_stats st))
          (overall_adj_cells st) (overall_adj_valid_cells st).

Definition extend_all_tokens (xs : list string) (st : State) : State :=
  mkState (image_results st) (all_tokens st ++ xs) (all_adjectives st) (all_nouns st)
          (adj_stats st) (overall_adj_cells st) (overall_adj_valid_cells st).

Definition extend_all_adjectives (xs : list string) (st : State) : State :=
  mkState (image_results st) (all_tokens st) (all_adjectives st ++ xs) (all_nouns st)
          (adj_stats st) (overall_adj_cells st) (overall_adj_valid_cells st).

Definition extend_all_nouns (xs : list string) (st : State) : State :=
  mkState (image_results st) (all_tokens st) (all_adjectives st) (all_nouns st ++ xs)
          (adj_stats st) (overall_adj_cells st) (overall_adj_valid_cells st).

Definition incr_overall_adj_cells (st : State) : State :=
  mkState (image_results st) (all_tokens st) (all_adjectives st) (all_nouns st)
          (adj_stats st) (overall_adj_cells st + 1) (overall_adj_valid_cells st).

Definition incr_overall_adj_valid_cells (st : State) : State :=
  mkState (image_results st) (all_tokens st) (all_adjectives st) (all_nouns st)
          (adj_stats st) (overall_adj_cells st) (overall_adj_valid_cells st + 1).

(** Truth value of a list: non-empty. *)
Definition nonempty {A : Type} (l : list A) : bool :=
  match l with [] => false | _ => true end.

Section Analysis.

Variable nlp : string -> list Token.

(** The body of the inner loop (lines 76 to 109) for the image at index
    [i] with its two column names. *)
Definition process_cell (row : Row) (ip : nat * (string * string)) (st : State) : State :=
  let '(i, (desc_col, adj_col)) := ip in
  let tokens := tokenize_description nlp (row desc_col) in
  let st := upd_image i (Res.extend_all_tokens tokens) st in
  let nouns := extract_nouns nlp (row desc_col) in
  let st := upd_image i (Res.extend_nouns nouns) st in
  let st :=
    if negb (isna (row adj_col)) then
      let st := upd_adj_stats adj_col Stat.incr_cells st in
      let candidate_adjs := extract_adjectives (row adj_col) in
      let valid_adjs := filter_adjectives nlp candidate_adjs in
      let st := if nonempty valid_adjs
                then upd_adj_stats adj_col Stat.incr_valid_cells st else st in
      let st := upd_image i (Res.extend_adjectives valid_adjs) st in
      if negb (i =? 1) then
        let st := incr_overall_adj_cells st in
        let st := if nonempty valid_adjs then incr_overall_adj_valid_cells st else st in
        extend_all_adjectives valid_adjs st
      else st
    else st in
  if negb (i =? 1) then extend_all_nouns nouns (extend_all_tokens tokens st)
  else st.

(** The cells in the order the two nested loops visit them. *)
Definition visits (data : list Row) : list (Row * (nat * (string * string))) :=
  flat_map (fun row => map (pair row) (enumerate image_pairs)) data.

(** The state after a sequence of visited cells. *)
Definition run_cells (vs : list (Row * (nat * (string * string)))) (st : State) : State :=
  fold_left (fun st v => process_cell (fst v) (snd v) st) vs st.

(** The inner loop over one row. *)
Definition process_row (st : State) (row : Row) : State :=
  fold_left (fun st ip => process_cell row ip st) (enumerate image_pairs) st.

(** The row loop (lines 74 to 109) from the initial accumulators. *)
Definition run (data : list Row) : State := fold_left process_row data init_state.

(** The same loop body as the sequence of its assignments, in program
    order; the states between two assignments are the points that the
    execution goes through ([process_cell_statements] below). *)
Definition cell_statements (row : Row) (ip : nat * (string * string))
  : list (State -> State) :=
  let '(i, (desc_col, adj_col)) := ip in
  let tokens := tokenize_description nlp (row desc_col) in
  let nouns := extract_nouns nlp (row desc_col) in
  let valid_adjs := filter_adjectives nlp (extract_adjectives (row adj_col)) in
  [upd_image i (Res.extend_all_tokens tokens); upd_image i (Res.extend_nouns nouns)]
  ++ (if negb (isna (row adj_col)) then
        [upd_adj_stats adj_col Stat.incr_cells]
        ++ (if nonempty valid_adjs
            then [upd_adj_stats adj_col Stat.incr_valid_cells] else [])
        ++ [upd_image i (Res.extend_adjectives valid_adjs)]
        ++ (if negb (i =? 1) then
              [incr_overall_adj_cells]
              ++ (if nonempty valid_adjs then [incr_overall_adj_valid_cells] else [])
              ++ [extend_all_adjectives valid_adjs]
            else [])
      else [])
  ++ (if negb (i =? 1) then [extend_all_tokens tokens; extend_all_nouns nouns] else []).

(** The state after a sequence of assignments. *)
Definition run_statements (fs : list (State -> State)) (st : State) : State :=
  fold_left (fun st f => f st) fs st.

(** All the assignments of the row loop, in the order of their execution. *)
Definition statements (data : list Row) : list (State -> State) :=
  flat_map (fun v => cell_statements (fst v) (snd v)) (visits data).

End Analysis.

(** ** The report *)

(** The entry of one image in [image_frequencies]. *)
Module Freq.
Record t := mk {
  description_word_freq : counter;
  adjective_freq : counter;
  noun_freq : counter
}.
End Freq.

(** A value of the exported frame: a word or the padding [""], or a count. *)
Inductive CsvValue : Type :=
| CsvStr (s : string)
| CsvInt (n : nat).

Definition image_frequencies (st : State) : list (string * Freq.t) :=
  map (fun ir => (fst ir,
                  Freq.mk (Counter (Res.all_tokens (snd ir)))
                          (Counter (Res.adjectives (snd ir)))
                          (Counter (Res.nouns (snd ir)))))
      (image_results st).

Definition overall_description_word_freq (st : State) : counter := Counter (all_tokens st).
Definition overall_adjective_freq (st : State) : counter := Counter (all_adjectives st).
Definition overall_noun_freq (st : State) : counter := Counter (all_nouns st).

(** Lines 140 to 144.  [list_max] is [max] over the six images (Python's
    [max] of no value at all, which raises, cannot occur: [keys_main]). *)
Definition max_rows (st : State) : nat :=
  let max_rows :=
    list_max (map (fun freq =>
                     Nat.max (length (Freq.description_word_freq freq))
                             (Nat.max (length (Freq.adjective_freq freq))
                                      (length (Freq.noun_freq freq))))
                  (dict_values (image_frequencies st))) in
  Nat.max max_rows
    (Nat.max (length (overall_description_word_freq st))
       (Nat.max (length (overall_adjective_freq st))
                (length (overall_noun_freq st)))).

(** [[""] * k] for a Python integer [k]: empty when [k <= 0]. *)
Definition blanks (k : Z) : list CsvValue := repeat (CsvStr "") (Z.to_nat k).

Definition words (ranked : list (string * nat)) : list CsvValue :=
  map (fun p => CsvStr (fst p)) ranked.
Definition freqs (ranked : list (string * nat)) : list CsvValue :=
  map (fun p => CsvInt (snd p)) ranked.

(** The six columns of one image (lines 148 to 158). *)
Definition image_columns (max_rows : nat) (image : string) (fr : Freq.t)
  : list (string * list CsvValue) :=
  let free := most_common max_rows (Freq.description_word_freq fr) in
  let adj := most_common max_rows (Freq.adjective_freq fr) in
  let noun := most_common max_rows (Freq.noun_freq fr) in
  let pad (l : list (string * nat)) := blanks (Z.of_nat max_rows - Z.of_nat (length l)) in
  [ ((image ++ "_Free_Word")%string, words free ++ pad free);
    ((image ++ "_Free_Freq")%string, freqs free ++ pad free);
    ((image ++ "_Adj_Word")%string, words adj ++ pad adj);
    ((image ++ "_Adj_Freq")%string, freqs adj ++ pad adj);
    ((image ++ "_Noun_Word")%string, words noun ++ pad noun);
    ((image ++ "_Noun_Freq")%string, freqs noun ++ pad noun) ].

(** The six columns of the roll-up (lines 160 to 167); here the padding is
    computed from the length of the counter itself. *)
Definition overall_columns (max_rows : nat) (st : State) : list (string * list CsvValue) :=
  let pad (c : counter) := blanks (Z.of_nat max_rows - Z.of_nat (length c)) in
  let w := overall_description_word_freq st in
  let a := overall_adjective_freq st in
  let n := overall_noun_freq st in
  [ ("Overall_Free_Word", words (most_common max_rows w) ++ pad w);
    ("Overall_Free_Freq", freqs (most_common max_rows w) ++ pad w);
    ("Overall_Adj_Word", words (most_common max_rows a) ++ pad a);
    ("Overall_Adj_Freq", freqs (most_common max_rows a) ++ pad a);
    ("Overall_Noun_Word", words (most_common max_rows n) ++ pad n);
    ("Overall_Noun_Freq", freqs (most_common max_rows n) ++ pad n) ].

(** [csv_data] (lines 146 to 167). *)
Definition csv_data (st : State) : list (string * list CsvValue) :=
  let max_rows := max_rows st in
  let csv_data :=
    fold_left (fun csv_data ifr =>
                 dict_update csv_data (image_columns max_rows (fst ifr) (snd ifr)))
              (image_frequencies st) [] in
  dict_update csv_data (overall_columns max_rows st).

(** ** A stand-in annotator

    The properties below hold for every annotator.  To run the script on
    concrete inputs, [toy_nlp] cuts a text at separators and tags each
    word from a small lexicon. *)
Module Toy.

Definition is_letter (c : ascii) : bool :=
  let n := nat_of_ascii c in
  (((65 <=? n) && (n <=? 90)) || ((97 <=? n) && (n <=? 122)))%nat.

Fixpoint all_letters (s : string) : bool :=
  match s with
  | "" => true
  | String c s' => is_letter c && all_letters s'
  end.

Definition mem (w : string) (l : list string) : bool := existsb (String.eqb w) l.

Definition pos (w : string) : string :=
  if mem w ["beautiful"; "bright"; "red"; "colorful"; "vivid"] then "ADJ"
  else if mem w ["house"; "garden"] then "NOUN"
  else if mem w ["very"] then "ADV"
  else if mem w ["a"; "the"] then "DET"
  else if all_letters w then "X" else "NUM".

Definition token (w : string) : Token :=
  mkToken w (pos w) (all_letters w) (mem w ["a"; "the"; "very"]).

Definition toy_nlp (text : string) : list Token :=
  map token (filter Str.truthy (Str.re_split text)).

(** A row from the twelve description and adjective cells, in column
    order; every other column is missing. *)
Definition row_of (l : list (string * cell)) : Row :=
  fun col => match dict_get col l with Some c => c | None => None end.

(** Rows for the examples: a whitespace-only adjective field for image
    1, one for image 3 next to a description, and a numeric adjective. *)
Definition blank_row_1 : Row := row_of [("Adjectives_1", Some "   ")].
Definition blank_row_3 : Row :=
  row_of [("Description_3", Some "a red house"); ("Adjectives_3", Some "  ")].
Definition numeric_row : Row := row_of [("Adjectives_1", Some "123")].
Definition red_row : Row := row_of [("Adjectives_1", Some "red")].

(** Two one-row tables that differ in the fields of stimulus 2 only. *)
Definition table_a : list Row :=
  [row_of [("Description_1", Some "a red house");
           ("Description_2", Some "the bright garden");
           ("Adjectives_2", Some "vivid")]].
Definition table_b : list Row :=
  [row_of [("Description_1", Some "a red house");
           ("Adjectives_2", Some "123, colorful")]].

End Toy.

(** ** Notions of the specification

    These definitions follow the words of the specification; the
    properties compare them with the script. *)

(** Every character of [s] is in the class [p]. *)
Fixpoint all_chars (p : ascii -> bool) (s : string) : bool :=
  match s with
  | "" => true
  | String c s' => p c && all_chars p s'
  end.

Definition not_sep (c : ascii) : bool := negb (Str.is_sep c).

(** "The ordered sequence of non-empty substrings obtained by splitting on
    any run of comma, semicolon, or whitespace characters": [spec_split s
    ws] reads [s] as a run [g] of separators (possibly empty), then a
    non-empty word [w] without separator that extends to the end of the
    string or to the next separator, and so on. *)
Inductive spec_split : string -> list string -> Prop :=
| spec_split_nil (g : string) :
    all_chars Str.is_sep g = true -> spec_split g []
| spec_split_cons (g w s : string) (ws : list string) :
    all_chars Str.is_sep g = true ->
    w <> "" -> all_chars not_sep w = true ->
    s = "" \/ Str.starts_with Str.is_sep s = true ->
    spec_split s ws ->
    spec_split (g ++ w ++ s)%string (w :: ws).

(** A missing or blank field: NA, the empty string, or whitespace only. *)
Definition is_blank (c : cell) : bool :=
  match c with
  | None => true
  | Some v => all_chars Str.is_space v
  end.

(** Position of the first occurrence of [x] in the stream (the length of
    the stream when [x] does not occur). *)
Fixpoint first_index (x : string) (stream : list string) : nat :=
  match stream with
  | [] => 0
  | y :: stream' => if String.eqb x y then 0 else S (first_index x stream')
  end.

Definition earlier (stream : list string) (x y : string) : Prop :=
  first_index x stream < first_index y stream.

(** "Descending count, ties broken by first-encountered order": the
    entry [p] must be listed before the entry [q]. *)
Definition ranks_before (stream : list string) (p q : string * nat) : Prop :=
  snd q < snd p \/ (snd p = snd q /\ earlier stream (fst p) (fst q)).

(** The order produced by a descending sort on counts that keeps the
    input order [T] between entries of equal count. *)
Definition lex (T : string * nat -> string * nat -> Prop) (p q : string * nat) : Prop :=
  snd q < snd p \/ (snd p = snd q /\ T p q).

(** The overall aggregates: the three roll-up streams and the two
    roll-up counters. *)
Definition overall (st : State)
  : list string * list string * list string * nat * nat :=
  (all_tokens st, all_adjectives st, all_nouns st,
   overall_adj_cells st, overall_adj_valid_cells st).

(** Two rows that differ at most in the fields of stimulus 2. *)
Definition same_outside_stimulus_2 (r1 r2 : Row) : Prop :=
  forall col : string, col <> "Description_2" -> col <> "Adjectives_2" -> r1 col = r2 col.

(** The cells-processed counter of a column, as the report prints it. *)
Definition cells_of (col : string) (st : State) : nat :=
  match dict_get col (adj_stats st) with
  | Some s => Stat.cells s
  | None => 0
  end.

Definition valid_cells_of (col : string) (st : State) : nat :=
  match dict_get col (adj_stats st) with
  | Some s => Stat.valid_cells s
  | None => 0
  end.

(** The adjectives accumulated so far, image by image. *)
Definition image_adjectives (st : State) : list (list string) :=
  map Res.adjectives (dict_values (image_results st)).

(** The keys that the script creates at lines 63 and 67. *)
Definition image_keys : list string :=
  ["Image_1"; "Image_2"; "Image_3"; "Image_4"; "Image_5"; "Image_6"].
Definition adj_cols : list string :=
  ["Adjectives_1"; "Adjectives_2"; "Adjectives_3"; "Adjectives_4";
   "Adjectives_5"; "Adjectives_6"].

(** In every column the valid cells are among the processed ones, and so
    they are in the roll-up. *)
Definition valid_within_cells (st : State) : Prop :=
  (forall col : string, valid_cells_of col st <= cells_of col st)
  /\ overall_adj_valid_cells st <= overall_adj_cells st.

(** The relations between the counters of the console report: the two
    above for the six adjective columns, and the roll-up counts the cells
    of the five included columns. *)
Definition counters_ok (st : State) : Prop :=
  (forall col : string, In col adj_cols -> valid_cells_of col st <= cells_of col st)
  /\ overall_adj_valid_cells st <= overall_adj_cells st
  /\ overall_adj_cells st
     = cells_of "Adjectives_1" st + cells_of "Adjectives_3" st
       + cells_of "Adjectives_4" st + cells_of "Adjectives_5" st
       + cells_of "Adjectives_6" st.

(** The twenty-one frequency tables of the report: word, adjective and
    noun table of each image, then those of the roll-up. *)
Definition tables (st : State) : list counter :=
  flat_map (fun fr => [Freq.description_word_freq fr; Freq.adjective_freq fr;
                       Freq.noun_freq fr])
           (dict_values (image_frequencies st))
  ++ [overall_description_word_freq st; overall_adjective_freq st; overall_noun_freq st].

(** The ranked table of a counter, whole. *)
Definition ranked (c : counter) : list (string * nat) := sorted_desc c.

(** "Right-pad every shorter table with empty placeholders": the word
    column and the count column of one table in a frame of [rows] rows. *)
Definition padded_columns (rows : nat) (name : string) (c : counter)
  : list (string * list CsvValue) :=
  [ ((name ++ "_Word")%string,
     words (ranked c) ++ repeat (CsvStr "") (rows - length (ranked c)));
    ((name ++ "_Freq")%string,
     freqs (ranked c) ++ repeat (CsvStr "") (rows - length (ranked c))) ].

Definition report_columns (rows : nat) (prefix : string) (w a n : counter)
  : list (string * list CsvValue) :=
  padded_columns rows (prefix ++ "_Free") w
  ++ padded_columns rows (prefix ++ "_Adj") a
  ++ padded_columns rows (prefix ++ "_Noun") n.

(** The exported table as the specification describes it: as many rows as
    the longest ranked table, six columns per image and six for the
    roll-up, every table whole and padded. *)
Definition spec_rows (st : State) : nat :=
  list_max (map (fun c => length (ranked c)) (tables st)).

Definition spec_csv (st : State) : list (string * list CsvValue) :=
  flat_map (fun ifr => report_columns (spec_rows st) (fst ifr)
                         (Freq.description_word_freq (snd ifr))
                         (Freq.adjective_freq (snd ifr))
                         (Freq.noun_freq (snd ifr)))
           (image_frequencies st)
  ++ report_columns (spec_rows st) "Overall"
       (overall_description_word_freq st) (overall_adjective_freq st)
       (overall_noun_freq st).

(** The names of the forty-two columns, in the order of the file. *)
Definition column_names (prefix : string) : list string :=
  flat_map (fun kind => [(prefix ++ kind ++ "_Word")%string;
                         (prefix ++ kind ++ "_Freq")%string])
           ["_Free"; "_Adj"; "_Noun"].

Definition csv_columns : list string :=
  flat_map column_names (image_keys ++ ["Overall"]).

(** The alphabetic tokens of a candidate, on which the validator decides. *)
Definition alpha_tokens (nlp : string -> list Token) (candidate : string) : list Token :=
  filter is_alpha (nlp candidate).

(** "The space-joined sequence of their lemmas". *)
Definition canonical (nlp : string -> list Token) (candidate : string) : string :=
  String.concat " " (map lemma_ (alpha_tokens nlp candidate)).

(** ** Notions for the properties of the whole script *)

(** [l1] is [l2] with some elements left out, the others in their order. *)
Inductive subseq {A : Type} : list A -> list A -> Prop :=
| subseq_nil : subseq [] []
| subseq_skip (x : A) (l1 l2 : list A) : subseq l1 l2 -> subseq l1 (x :: l2)
| subseq_keep (x : A) (l1 l2 : list A) : subseq l1 l2 -> subseq (x :: l1) (x :: l2).

(** [c[elem]] on a [Counter]: the count, and 0 for an item not counted. *)
Definition counter_get (elem : string) (c : counter) : nat :=
  match dict_get elem c with
  | Some n => n
  | None => 0
  end.

(** [c.total()] *)
Definition counter_total (c : counter) : nat := list_sum (map snd c).

(** The non-empty pieces of [re.split]: the candidates before the
    validation. *)
Definition fields (s : string) : list string := filter Str.truthy (Str.re_split s).

(** The validated adjectives of one adjective cell. *)
Definition valid_adjectives (nlp : string -> list Token) (field : cell) : list string :=
  filter_adjectives nlp (extract_adjectives field).

(** The tests of lines 85 and 94 on the cell of a column. *)
Definition processed (col : string) (row : Row) : bool := negb (isna (row col)).
Definition yields_adjective (nlp : string -> list Token) (col : string) (row : Row) : bool :=
  nonempty (valid_adjectives nlp (row col)).

(** The number of rows that pass a test. *)
Definition count_rows (p : Row -> bool) (data : list Row) : nat := length (filter p data).

(** The entry of [image_results] and the two columns of each stimulus, and
    the column pairs that the roll-up includes (all but index 1). *)
Definition stimulus_columns : list (string * (string * string)) :=
  map (fun ip => (image_key (fst ip), snd ip)) (enumerate image_pairs).
Definition included_columns : list (string * string) :=
  map snd (filter (fun ip => negb (fst ip =? 1)) (enumerate image_pairs)).

(** What the rows of a table say about one stimulus. *)
Definition gathered (nlp : string -> list Token) (data : list Row) (dc ac : string) : Res.t :=
  Res.mk (flat_map (fun row => tokenize_description nlp (row dc)) data)
         (flat_map (fun row => valid_adjectives nlp (row ac)) data)
         (flat_map (fun row => extract_nouns nlp (row dc)) data).

(** The images that the roll-up includes. *)
Definition included_images : list string :=
  map (fun ip => image_key (fst ip))
      (filter (fun ip => negb (fst ip =? 1)) (enumerate image_pairs)).

(** The count of an item in one of the three tables of an image (0 when
    the image has no entry). *)
Definition image_count (table : Freq.t -> counter) (st : State) (elem key : string) : nat :=
  match dict_get key (image_frequencies st) with
  | Some fr => counter_get elem (table fr)
  | None => 0
  end.

(** A response without any answer: its twelve cells are missing. *)
Definition unanswered (row : Row) : Prop :=
  Forall (fun c => row (fst c) = None /\ row (snd c) = None) image_pairs.

(** ** The exported frame and the console report *)

(** [pd.DataFrame(d)] for a dictionary of lists (line 169): the frame has
    the columns of [d] in their order and one row per position.  Lists
    of different lengths are refused (pandas raises ValueError): [None].
    [to_csv(..., index=False)] (line 170) writes the names and then the
    rows of this frame; the text format of the file is not modelled. *)
Definition DataFrame (d : list (string * list CsvValue))
  : option (list string * list (list CsvValue)) :=
  let n := match d with [] => 0 | c :: _ => length (snd c) end in
  if forallb (fun c => length (snd c) =? n) d
  then Some (dict_keys d,
             map (fun r => map (fun c => nth r (snd c) (CsvStr "")) d) (seq 0 n))
  else None.

Definition csv_df (st : State) : option (list string * list (list CsvValue)) :=
  DataFrame (csv_data st).

(** [sorted(keys)] on strings: ascending code-point order, stable. *)
Fixpoint insert_sorted (k : string) (l : list string) : list string :=
  match l with
  | [] => [k]
  | k' :: l' => if String.leb k k' then k :: l else k' :: insert_sorted k l'
  end.

Definition sorted (keys : list string) : list string := fold_right insert_sorted [] keys.

Definition newline : string := String (ascii_of_nat 10) "".

(** The three lines that the loop of lines 127 to 131 prints for a column. *)
Definition column_lines (col : string) (cells valid_cells : nat) : list string :=
  [ (col ++ ":")%string;
    ("  Cells processed: " ++ str_of_nat cells)%string;
    ("  Valid cells: " ++ str_of_nat valid_cells)%string ].

(** What the script prints (lines 126 to 136), one string per call of
    [print].  [adj_stats[col]] is read for the keys of [adj_stats] itself,
    so the lookup cannot fail. *)
Definition console (st : State) : list string :=
  [ (newline ++ "Adjective Column Statistics (cells processed and valid cells):")%string ]
  ++ flat_map (fun col =>
                 match dict_get col (adj_stats st) with
                 | Some stats => column_lines col (Stat.cells stats) (Stat.valid_cells stats)
                 | None => []
                 end)
              (sorted (dict_keys (adj_stats st)))
  ++ [ (newline ++ "Overall Adjective Statistics (from included images):")%string;
       ("  Cells processed: " ++ str_of_nat (overall_adj_cells st))%string;
       ("  Valid cells: " ++ str_of_nat (overall_adj_valid_cells st))%string ].

(** ** Properties *)

Example split_example :
  extract_adjectives (Some "bright, colorful;  vivid") = ["bright"; "colorful"; "vivid"].
Proof. reflexivity. Qed.

Example split_edges :
  Str.re_split ",a, ;b;" = [""; "a"; "b"; ""] /\ normalize "  A  B " = "a b".
Proof. split; reflexivity. Qed.

Example image_pairs_value :
  image_pairs = [("Description_1", "Adjectives_1"); ("Description_2", "Adjectives_2");
                 ("Description_3", "Adjectives_3"); ("Description_4", "Adjectives_4");
                 ("Description_5", "Adjectives_5"); ("Description_6", "Adjectives_6")].
Proof. reflexivity. Qed.

Example most_common_example :
  most_common 5 (Counter ["a"; "b"; "c"; "b"; "a"; "b"; "a"]) = [("a", 3); ("b", 3); ("c", 1)].
Proof. reflexivity. Qed.

Example validator_examples :
  filter_adjectives Toy.toy_nlp ["beautiful"] = ["beautiful"]
  /\ filter_adjectives Toy.toy_nlp ["very beautiful"] = []
  /\ filter_adjectives Toy.toy_nlp ["bright"; "house"; "red"] = ["bright"; "red"].
Proof. repeat split. Qed.

Example aggregation_example :
  let row := Toy.row_of [("Description_1", Some "a bright red house");
                         ("Adjectives_1", Some "bright, red")] in
  let st := run Toy.toy_nlp [row] in
  dict_get "Image_1" (image_results st)
    = Some (Res.mk ["bright"; "red"; "house"] ["bright"; "red"] ["house"])
  /\ dict_get "Adjectives_1" (adj_stats st) = Some (Stat.mk 1 1)
  /\ overall_adj_cells st = 1.
Proof. vm_compute. auto. Qed.

(** *** Characters *)

Lemma lower_char_idem (c : ascii) : Str.lower_char (Str.lower_char c) = Str.lower_char c.
Proof. destruct c as [[] [] [] [] [] [] [] []]; reflexivity. Qed.

Lemma is_space_lower_char (c : ascii) : Str.is_space (Str.lower_char c) = Str.is_space c.
Proof. destruct c as [[] [] [] [] [] [] [] []]; reflexivity. Qed.

Lemma is_space_is_sep (c : ascii) : Str.is_space c = true -> Str.is_sep c = true.
Proof. unfold Str.is_sep; intros ->; now rewrite orb_true_r. Qed.

(** *** Lowering commutes with the whitespace operations *)

Lemma lower_idem (s : string) : Str.lower (Str.lower s) = Str.lower s.
Proof. induction s as [|c s IH]; simpl; [reflexivity|]. now rewrite lower_char_idem, IH. Qed.

Lemma starts_with_space_lower (s : string) :
  Str.starts_with Str.is_space (Str.lower s) = Str.starts_with Str.is_space s.
Proof. destruct s; simpl; [reflexivity | apply is_space_lower_char]. Qed.

Lemma lower_lstrip (s : string) : Str.lower (Str.lstrip s) = Str.lstrip (Str.lower s).
Proof.
  induction s as [|c s IH]; simpl; [reflexivity|].
  rewrite is_space_lower_char. destruct (Str.is_space c); [exact IH | reflexivity].
Qed.

Lemma lower_rstrip (s : string) : Str.lower (Str.rstrip s) = Str.rstrip (Str.lower s).
Proof.
  induction s as [|c s IH]; simpl; [reflexivity|].
  rewrite <- IH, is_space_lower_char.
  destruct (Str.rstrip s); simpl; [destruct (Str.is_space c)|]; reflexivity.
Qed.

Lemma lower_re_sub_ws (s : string) : Str.lower (Str.re_sub_ws s) = Str.re_sub_ws (Str.lower s).
Proof.
  induction s as [|c s IH]; simpl; [reflexivity|].
  rewrite is_space_lower_char, starts_with_space_lower.
  destruct (Str.is_space c); [destruct (Str.starts_with Str.is_space s)|];
    simpl; now rewrite IH.
Qed.

Lemma lower_normalize (s : string) : Str.lower (normalize s) = normalize s.
Proof.
  unfold normalize, Str.strip.
  now rewrite lower_re_sub_ws, lower_rstrip, lower_lstrip, lower_idem.
Qed.

(** *** Trimmed strings *)

Lemma rstrip_idem (s : string) : Str.rstrip (Str.rstrip s) = Str.rstrip s.
Proof.
  induction s as [|c s IH]; simpl; [reflexivity|].
  destruct (Str.rstrip s) as [|d r] eqn:E.
  - destruct (Str.is_space c) eqn:Ec; simpl; [reflexivity | now rewrite Ec].
  - simpl in *. now rewrite IH.
Qed.

Lemma lstrip_idem (s : string) : Str.lstrip (Str.lstrip s) = Str.lstrip s.
Proof.
  induction s as [|c s IH]; simpl; [reflexivity|].
  destruct (Str.is_space c) eqn:Ec; [exact IH | simpl; now rewrite Ec].
Qed.

(** [lstrip] leaves a string alone exactly when it does not start with
    whitespace. *)
Lemma lstrip_fix (s : string) :
  Str.lstrip s = s <-> Str.starts_with Str.is_space s = false.
Proof.
  destruct s as [|c s]; simpl; [tauto|].
  destruct (Str.is_space c) eqn:Ec; split; try easy.
  intros H. exfalso.
  assert (L : forall t, String.length (Str.lstrip t) <= String.length t).
  { induction t as [|d t IH]; simpl; [lia|]. destruct (Str.is_space d); simpl; lia. }
  specialize (L s). rewrite H in L. simpl in L. lia.
Qed.

Lemma starts_with_rstrip (s : string) :
  Str.starts_with Str.is_space s = false ->
  Str.starts_with Str.is_space (Str.rstrip s) = false.
Proof.
  destruct s as [|c s]; simpl; [reflexivity|]. intros Ec.
  destruct (Str.rstrip s); [rewrite Ec|]; simpl; exact Ec.
Qed.

Lemma lstrip_strip (s : string) : Str.lstrip (Str.strip s) = Str.strip s.
Proof.
  unfold Str.strip. apply lstrip_fix, starts_with_rstrip, lstrip_fix, lstrip_idem.
Qed.

Lemma rstrip_strip (s : string) : Str.rstrip (Str.strip s) = Str.strip s.
Proof. unfold Str.strip. apply rstrip_idem. Qed.

(** *** Collapsing whitespace runs *)

Lemma starts_with_re_sub_ws (s : string) :
  Str.starts_with Str.is_space (Str.re_sub_ws s) = Str.starts_with Str.is_space s.
Proof.
  induction s as [|c s IH]; simpl; [reflexivity|].
  destruct (Str.is_space c) eqn:Ec; simpl; [|exact Ec].
  destruct (Str.starts_with Str.is_space s) eqn:Es; simpl; [|reflexivity].
  now rewrite IH.
Qed.

Lemma re_sub_ws_idem (s : string) : Str.re_sub_ws (Str.re_sub_ws s) = Str.re_sub_ws s.
Proof.
  induction s as [|c s IH]; simpl; [reflexivity|].
  destruct (Str.is_space c) eqn:Ec.
  - destruct (Str.starts_with Str.is_space s) eqn:Es; [exact IH|].
    simpl. now rewrite starts_with_re_sub_ws, Es, IH.
  - simpl. now rewrite Ec, IH.
Qed.

Lemma re_sub_ws_empty (s : string) : Str.re_sub_ws s = "" -> s = "".
Proof.
  induction s as [|c s IH]; simpl; [reflexivity|].
  destruct (Str.is_space c); [|discriminate].
  destruct (Str.starts_with Str.is_space s) eqn:Es; [|discriminate].
  intros H. apply IH in H. subst s. discriminate.
Qed.

Lemma lstrip_re_sub_ws (s : string) :
  Str.lstrip s = s -> Str.lstrip (Str.re_sub_ws s) = Str.re_sub_ws s.
Proof.
  intros H. apply lstrip_fix. rewrite starts_with_re_sub_ws. now apply lstrip_fix.
Qed.

Lemma rstrip_re_sub_ws (s : string) :
  Str.rstrip s = s -> Str.rstrip (Str.re_sub_ws s) = Str.re_sub_ws s.
Proof.
  induction s as [|c s IH]; simpl; [reflexivity|].
  intros H.
  destruct (Str.rstrip s) as [|d r] eqn:E.
  - destruct (Str.is_space c) eqn:Ec; [discriminate|].
    injection H as <-. simpl. now rewrite Ec.
  - injection H as H. specialize (IH H).
    assert (N : Str.re_sub_ws s <> "").
    { intros Z. apply re_sub_ws_empty in Z. subst s. discriminate. }
    destruct (Str.is_space c);
      [destruct (Str.starts_with Str.is_space s); [exact IH|]|];
      simpl; rewrite IH; destruct (Str.re_sub_ws s); congruence.
Qed.

Lemma strip_normalize (s : string) : Str.strip (normalize s) = normalize s.
Proof.
  unfold normalize. unfold Str.strip at 1.
  rewrite lstrip_re_sub_ws by apply lstrip_strip.
  apply rstrip_re_sub_ws, rstrip_strip.
Qed.

(** C9. The normalization step of [extract_adjectives] (lowercase, trim,
    collapse every whitespace run to one space) is idempotent: applied to
    a string that is already normalized it returns that string. *)
Theorem normalize_idempotent (s : string) : normalize (normalize s) = normalize s.
Proof.
  unfold normalize at 1.
  rewrite lower_normalize, strip_normalize.
  unfold normalize. apply re_sub_ws_idem.
Qed.

(** *** Splitting *)

Lemma all_chars_app (p : ascii -> bool) (s t : string) :
  all_chars p (s ++ t)%string = all_chars p s && all_chars p t.
Proof. induction s as [|c s IH]; simpl; [reflexivity|]. now rewrite IH, andb_assoc. Qed.

Lemma rstrip_no_space (s : string) :
  all_chars (fun c => negb (Str.is_space c)) s = true -> Str.rstrip s = s.
Proof.
  induction s as [|c s IH]; simpl; [reflexivity|].
  intros [Hc Hs]%andb_prop. rewrite (IH Hs).
  destruct s; [|reflexivity]. apply negb_true_iff in Hc. now rewrite Hc.
Qed.

Lemma lstrip_no_space (s : string) :
  all_chars (fun c => negb (Str.is_space c)) s = true -> Str.lstrip s = s.
Proof.
  destruct s as [|c s]; simpl; [reflexivity|].
  intros [Hc _]%andb_prop. apply negb_true_iff in Hc. now rewrite Hc.
Qed.

Lemma not_sep_no_space (s : string) :
  all_chars not_sep s = true -> all_chars (fun c => negb (Str.is_space c)) s = true.
Proof.
  induction s as [|c s IH]; simpl; [reflexivity|].
  intros [Hc Hs]%andb_prop. rewrite (IH Hs), andb_true_r.
  unfold not_sep in Hc. apply negb_true_iff in Hc. apply negb_true_iff.
  destruct (Str.is_space c) eqn:E; [|reflexivity].
  now rewrite (is_space_is_sep _ E) in Hc.
Qed.

(** A piece without separator is its own [strip]. *)
Lemma strip_not_sep (s : string) : all_chars not_sep s = true -> Str.strip s = s.
Proof.
  intros H%not_sep_no_space. unfold Str.strip.
  now rewrite (lstrip_no_space _ H), (rstrip_no_space _ H).
Qed.

(** A separator in front of the string changes nothing to its words. *)
Lemma spec_split_sep (c : ascii) (s : string) (ws : list string) :
  Str.is_sep c = true -> spec_split s ws -> spec_split (String c s) ws.
Proof.
  intros Hc H. destruct H as [g Hg | g w s ws Hg Hw Hn Hs H].
  - apply spec_split_nil. simpl. now rewrite Hc.
  - apply (spec_split_cons (String c g)); auto. simpl. now rewrite Hc.
Qed.

(** The shape of [re_split s]: its first piece [p] is the separator-free
    prefix of [s], and the pieces after it are those of the rest. *)
Lemma re_split_shape (s : string) :
  exists p ps rest,
    Str.re_split s = p :: ps /\ s = (p ++ rest)%string /\ all_chars not_sep p = true
    /\ (rest = "" \/ Str.starts_with Str.is_sep rest = true)
    /\ Forall (fun q => all_chars not_sep q = true) ps
    /\ spec_split rest (filter Str.truthy ps).
Proof.
  induction s as [|c s (p & ps & rest & E & Hs & Hp & Hr & Hps & IH)]; simpl.
  - exists "", [], "". repeat split; auto. now apply spec_split_nil.
  - destruct (Str.is_sep c) eqn:Ec.
    + assert (G : spec_split s (filter Str.truthy (p :: ps))).
      { simpl. destruct p as [|d p]; simpl.
        - simpl in Hs. now subst rest.
        - rewrite Hs. apply (spec_split_cons "" (String d p)); auto. discriminate. }
      destruct (Str.starts_with Str.is_sep s) eqn:Es.
      * assert (p = "").
        { destruct p as [|d p]; [reflexivity|]. subst s. simpl in Es, Hp.
          unfold not_sep in Hp. now rewrite Es in Hp. }
        subst p. rewrite E. exists "", ps, (String c s).
        repeat split; auto. simpl. auto. now apply spec_split_sep.
      * rewrite E. exists "", (p :: ps), (String c s).
        repeat split; auto. simpl. auto. now apply spec_split_sep.
    + rewrite E. exists (String c p), ps, rest.
      repeat split; auto.
      * simpl. now rewrite Hs.
      * simpl. unfold not_sep at 1. now rewrite Ec, Hp.
Qed.

Lemma re_split_words (s : string) : spec_split s (filter Str.truthy (Str.re_split s)).
Proof.
  destruct (re_split_shape s) as (p & ps & rest & E & Hs & Hp & Hr & Hps & IH).
  rewrite E. simpl. destruct p as [|d p]; simpl.
  - simpl in Hs. now subst rest.
  - rewrite Hs. apply (spec_split_cons "" (String d p)); auto. discriminate.
Qed.

Lemma re_split_not_sep (s : string) :
  Forall (fun q => all_chars not_sep q = true) (Str.re_split s).
Proof.
  destruct (re_split_shape s) as (p & ps & rest & E & Hs & Hp & Hr & Hps & IH).
  rewrite E. now constructor.
Qed.

(** The comprehension of line 31 keeps the non-empty pieces as they are. *)
Lemma strip_pieces (l : list string) :
  Forall (fun q => all_chars not_sep q = true) l ->
  map Str.strip (filter (fun item => Str.truthy (Str.strip item)) l) = filter Str.truthy l.
Proof.
  induction 1 as [|q l Hq Hl IH]; simpl; [reflexivity|].
  rewrite (strip_not_sep _ Hq). destruct (Str.truthy q); simpl; [|exact IH].
  now rewrite (strip_not_sep _ Hq), IH.
Qed.

Lemma extract_adjectives_words (v : string) :
  spec_split (normalize v) (extract_adjectives (Some v)).
Proof.
  unfold extract_adjectives. rewrite strip_pieces by apply re_split_not_sep.
  apply re_split_words.
Qed.

(** The words of a string are determined by [spec_split]. *)
Lemma spec_split_gap (g g' x x' : string) :
  all_chars Str.is_sep g = true -> all_chars Str.is_sep g' = true ->
  Str.starts_with not_sep x = true -> Str.starts_with not_sep x' = true ->
  (g ++ x)%string = (g' ++ x')%string -> g = g' /\ x = x'.
Proof.
  revert g'. induction g as [|c g IH]; intros [|c' g']; simpl; intros Hg Hg' Hx Hx' E.
  - now split.
  - subst x. simpl in Hx. apply andb_prop in Hg' as [Hc _].
    unfold not_sep in Hx. now rewrite Hc in Hx.
  - subst x'. simpl in Hx'. apply andb_prop in Hg as [Hc _].
    unfold not_sep in Hx'. now rewrite Hc in Hx'.
  - injection E as -> E. apply andb_prop in Hg as [_ Hg]. apply andb_prop in Hg' as [_ Hg'].
    destruct (IH g' Hg Hg' Hx Hx' E) as [-> ->]. now split.
Qed.

Lemma spec_split_word (w w' s s' : string) :
  all_chars not_sep w = true -> all_chars not_sep w' = true ->
  s = "" \/ Str.starts_with Str.is_sep s = true ->
  s' = "" \/ Str.starts_with Str.is_sep s' = true ->
  (w ++ s)%string = (w' ++ s')%string -> w = w' /\ s = s'.
Proof.
  revert w'. induction w as [|c w IH]; intros [|c' w']; simpl; intros Hw Hw' Hs Hs' E.
  - now split.
  - subst s. apply andb_prop in Hw' as [Hc _]. unfold not_sep in Hc.
    destruct Hs as [Hs|Hs]; [discriminate|]. simpl in Hs. now rewrite Hs in Hc.
  - subst s'. apply andb_prop in Hw as [Hc _]. unfold not_sep in Hc.
    destruct Hs' as [Hs'|Hs']; [discriminate|]. simpl in Hs'. now rewrite Hs' in Hc.
  - injection E as -> E. apply andb_prop in Hw as [_ Hw]. apply andb_prop in Hw' as [_ Hw'].
    destruct (IH w' Hw Hw' Hs Hs' E) as [-> ->]. now split.
Qed.

Lemma starts_with_word (w s : string) :
  w <> "" -> all_chars not_sep w = true -> Str.starts_with not_sep (w ++ s)%string = true.
Proof. destruct w as [|c w]; [easy|]. simpl. now intros _ [Hc _]%andb_prop. Qed.

Lemma spec_split_functional (s : string) (l1 l2 : list string) :
  spec_split s l1 -> spec_split s l2 -> l1 = l2.
Proof.
  intros H1. revert l2.
  induction H1 as [g Hg | g w s ws Hg Hw Hn Hs H IH]; intros l2 H2.
  - inversion H2 as [| g' w' s' ws' Hg' Hw' Hn' Hs' H' E]; [reflexivity|]. subst.
    rewrite !all_chars_app in Hg. apply andb_prop in Hg as [_ [Hg _]%andb_prop].
    destruct w' as [|c w']; [easy|]. simpl in Hg, Hn'.
    apply andb_prop in Hg as [Hc _]. apply andb_prop in Hn' as [Hc' _].
    unfold not_sep in Hc'. now rewrite Hc in Hc'.
  - inversion H2 as [g' Hg' E | g' w' s' ws' Hg' Hw' Hn' Hs' H' E]; subst.
    + rewrite !all_chars_app in Hg'. apply andb_prop in Hg' as [_ [Hg' _]%andb_prop].
      destruct w as [|c w]; [easy|]. simpl in Hg', Hn.
      apply andb_prop in Hg' as [Hc _]. apply andb_prop in Hn as [Hc' _].
      unfold not_sep in Hc'. now rewrite Hc in Hc'.
    + apply spec_split_gap in E as [-> E]; auto using starts_with_word.
      apply spec_split_word in E as [-> ->]; auto.
      f_equal. now apply IH.
Qed.

(** C6. On a normalized adjective field, [extract_adjectives] returns the
    non-empty substrings delimited by runs of commas, semicolons and
    whitespace, in their order and with their duplicates; the field
    ["bright, colorful;  vivid"] gives [bright; colorful; vivid] and the
    empty field gives no candidate. *)
Theorem extract_adjectives_split :
  (forall v : string, normalize v = v -> spec_split v (extract_adjectives (Some v)))
  /\ extract_adjectives (Some "bright, colorful;  vivid") = ["bright"; "colorful"; "vivid"]
  /\ extract_adjectives (Some "red, red;blue red") = ["red"; "red"; "blue"; "red"]
  /\ extract_adjectives (Some "") = [].
Proof.
  split; [|repeat split].
  intros v Hv. rewrite <- Hv at 1. apply extract_adjectives_words.
Qed.

Lemma extract_adjectives_split_witness :
  normalize "bright, vivid" = "bright, vivid"
  /\ spec_split "bright, vivid" ["bright"; "vivid"].
Proof.
  split; [reflexivity|].
  exact (proj1 extract_adjectives_split "bright, vivid" eq_refl).
Defined.

(** *** Missing fields *)

(** C8. On a missing (NA) field the description tokenizer, the noun
    extractor and the candidate splitter each return the empty sequence;
    the three functions are total, no input makes them fail. *)
Theorem missing_field_empty (nlp : string -> list Token) (field : cell) :
  isna field = true ->
  tokenize_description nlp field = []
  /\ extract_nouns nlp field = []
  /\ extract_adjectives field = [].
Proof. destruct field; [discriminate|]. now intros _. Qed.

Lemma missing_field_empty_witness :
  tokenize_description Toy.toy_nlp None = []
  /\ extract_nouns Toy.toy_nlp None = []
  /\ extract_adjectives None = [].
Proof. apply (missing_field_empty Toy.toy_nlp None). reflexivity. Defined.

(** *** The adjective validator *)

Section Validator.

Variable nlp : string -> list Token.

Lemma forallb_ADJ (ts : list Token) :
  forallb (fun token => String.eqb (pos_ token) "ADJ") ts = true
  <-> Forall (fun token => pos_ token = "ADJ") ts.
Proof.
  rewrite forallb_forall, Forall_forall.
  split; intros H t Ht; apply String.eqb_eq; auto.
Qed.

(** Candidates are validated one by one, in order. *)
Lemma filter_adjectives_app (l1 l2 : list string) :
  filter_adjectives nlp (l1 ++ l2) = filter_adjectives nlp l1 ++ filter_adjectives nlp l2.
Proof.
  induction l1 as [|c l1 IH]; simpl; [reflexivity|].
  destruct (forallb _ _); simpl; now rewrite IH.
Qed.

(** The vacuous case of [all(...)]: a candidate without alphabetic token
    passes the test of line 46 and yields the empty string. *)
Lemma filter_adjectives_no_alpha (candidate : string) :
  alpha_tokens nlp candidate = [] -> filter_adjectives nlp [candidate] = [""].
Proof. unfold alpha_tokens. simpl. now intros ->. Qed.

(** C5. A candidate with at least one alphabetic token is accepted if
    and only if every alphabetic token of it is tagged ADJ; when
    accepted it yields exactly one string, the lemmas of its alphabetic
    tokens joined by spaces, and when one alphabetic token is not an
    adjective it yields nothing. *)
Theorem filter_adjectives_accepts (candidate : string) :
  alpha_tokens nlp candidate <> [] ->
  ((exists s, filter_adjectives nlp [candidate] = [s])
   <-> Forall (fun token => pos_ token = "ADJ") (alpha_tokens nlp candidate))
  /\ (Forall (fun token => pos_ token = "ADJ") (alpha_tokens nlp candidate) ->
      filter_adjectives nlp [candidate] = [canonical nlp candidate])
  /\ (Exists (fun token => pos_ token <> "ADJ") (alpha_tokens nlp candidate) ->
      filter_adjectives nlp [candidate] = []).
Proof.
  intros _. unfold canonical, alpha_tokens. simpl.
  destruct (forallb _ _) eqn:E.
  - apply forallb_ADJ in E. repeat split; eauto.
    intros X. apply Exists_exists in X as (t & Ht & Hn).
    rewrite Forall_forall in E. now apply E in Ht.
  - assert (N : ~ Forall (fun token => pos_ token = "ADJ") (filter is_alpha (nlp candidate))).
    { intros F. apply forallb_ADJ in F. congruence. }
    repeat split; try easy. now intros [s Hs].
Qed.

End Validator.

Lemma filter_adjectives_accepts_witness :
  filter_adjectives Toy.toy_nlp ["bright red"] = ["bright red"]
  /\ filter_adjectives Toy.toy_nlp ["very beautiful"] = [].
Proof.
  split.
  - apply (filter_adjectives_accepts Toy.toy_nlp "bright red"); [discriminate|].
    repeat constructor.
  - apply (filter_adjectives_accepts Toy.toy_nlp "very beautiful"); [discriminate|].
    apply Exists_cons_hd. discriminate.
Defined.

(** C1 (the script departs from it). The candidate ["123"] has no
    alphabetic token, yet [filter_adjectives] emits a string for it, the
    empty one; a field holding only ["123"] then counts as a valid cell
    and the empty string enters the adjective lists of the image and of
    the roll-up. *)
Theorem numeric_candidate_accepted :
  alpha_tokens Toy.toy_nlp "123" = []
  /\ extract_adjectives (Some "123") = ["123"]
  /\ filter_adjectives Toy.toy_nlp ["123"] = [""]
  /\ dict_get "Adjectives_1" (adj_stats (run Toy.toy_nlp [Toy.numeric_row]))
     = Some (Stat.mk 1 1)
  /\ dict_get "Image_1" (image_results (run Toy.toy_nlp [Toy.numeric_row]))
     = Some (Res.mk [] [""] [])
  /\ all_adjectives (run Toy.toy_nlp [Toy.numeric_row]) = [""]
  /\ overall_adj_valid_cells (run Toy.toy_nlp [Toy.numeric_row]) = 1
  /\ overall_adjective_freq (run Toy.toy_nlp [Toy.numeric_row]) = [("", 1)].
Proof. vm_compute. repeat split. Qed.

(** *** Counters *)

Lemma Counter_snoc (l : list string) (x : string) :
  Counter (l ++ [x]) = counter_add x (Counter l).
Proof. unfold Counter. now rewrite fold_left_app. Qed.

Lemma counter_add_in (y x : string) (c : counter) :
  In y (dict_keys (counter_add x c)) <-> y = x \/ In y (dict_keys c).
Proof.
  induction c as [|[k n] c IH]; simpl; [intuition|].
  destruct (String.eqb_spec x k) as [->|N]; simpl; [intuition|].
  fold (dict_keys (counter_add x c)). rewrite IH. intuition.
Qed.

Lemma counter_add_old (x : string) (c : counter) :
  In x (dict_keys c) -> dict_keys (counter_add x c) = dict_keys c.
Proof.
  induction c as [|[k n] c IH]; simpl; [easy|].
  destruct (String.eqb_spec x k) as [->|N]; simpl; [reflexivity|].
  intros [E|H]; [congruence|]. f_equal. now apply IH.
Qed.

Lemma counter_add_new (x : string) (c : counter) :
  ~ In x (dict_keys c) -> counter_add x c = c ++ [(x, 1)].
Proof.
  induction c as [|[k n] c IH]; simpl; [reflexivity|].
  intros H. destruct (String.eqb_spec x k) as [->|N]; [tauto|].
  f_equal. apply IH. tauto.
Qed.

Lemma counter_add_nodup (x : string) (c : counter) :
  NoDup (dict_keys c) -> NoDup (dict_keys (counter_add x c)).
Proof.
  induction c as [|[k n] c IH]; simpl; intros H.
  - repeat constructor. easy.
  - inversion H as [|? ? Hk Hc]; subst.
    destruct (String.eqb_spec x k) as [->|N]; simpl; [now constructor|].
    constructor; [|now apply IH].
    fold (dict_keys (counter_add x c)). rewrite counter_add_in. intuition congruence.
Qed.

(** The counts after one more element, against any count function [f]
    that is right before it. *)
Lemma counter_add_counts (f : string -> nat) (x : string) (c : counter) :
  NoDup (dict_keys c) ->
  Forall (fun p => snd p = f (fst p)) c ->
  (~ In x (dict_keys c) -> f x = 0) ->
  Forall (fun p => snd p = f (fst p) + (if String.eqb (fst p) x then 1 else 0))
         (counter_add x c).
Proof.
  induction c as [|[k n] c IH]; simpl; intros Hd Hc Hx.
  - constructor; [|constructor]. simpl. rewrite String.eqb_refl, Hx; auto.
  - inversion Hd as [|? ? Hk Hd']; inversion Hc as [|? ? Hn Hc']; subst. simpl in *.
    destruct (String.eqb_spec x k) as [->|N].
    + constructor; simpl; [rewrite String.eqb_refl; lia|].
      rewrite Forall_forall in *. intros p Hp. rewrite (Hc' p Hp).
      destruct (String.eqb_spec (fst p) k) as [E|_]; [|lia].
      exfalso. apply Hk. rewrite <- E. now apply in_map.
    + constructor; simpl.
      * destruct (String.eqb_spec k x); [congruence | lia].
      * apply IH; auto. intros H. apply Hx. intros [E|E]; [congruence | now apply H].
Qed.

Lemma Counter_keys_in (l : list string) (x : string) :
  In x (dict_keys (Counter l)) <-> In x l.
Proof.
  induction l as [|y l IH] using rev_ind; [simpl; tauto|].
  rewrite Counter_snoc, counter_add_in, in_app_iff, IH. simpl. intuition.
Qed.

Lemma Counter_keys_nodup (l : list string) : NoDup (dict_keys (Counter l)).
Proof.
  induction l as [|y l IH] using rev_ind; [constructor|].
  rewrite Counter_snoc. now apply counter_add_nodup.
Qed.

Lemma Counter_counts (l : list string) :
  Forall (fun p => snd p = count_occ string_dec l (fst p)) (Counter l).
Proof.
  induction l as [|y l IH] using rev_ind; [constructor|].
  rewrite Counter_snoc.
  eapply Forall_impl; [|apply (counter_add_counts (count_occ string_dec l) y)].
  - intros p ->. rewrite count_occ_app. f_equal. simpl.
    destruct (string_dec y (fst p)) as [->|N].
    + now rewrite String.eqb_refl.
    + destruct (String.eqb_spec (fst p) y); congruence.
  - apply Counter_keys_nodup.
  - exact IH.
  - rewrite Counter_keys_in. apply count_occ_not_In.
Qed.

Lemma Counter_positive (l : list string) : Forall (fun p => 0 < snd p) (Counter l).
Proof.
  pose proof (Counter_counts l) as H. rewrite Forall_forall in *.
  intros p Hp. rewrite (H p Hp). apply count_occ_In, Counter_keys_in.
  now apply in_map.
Qed.

(** *** First occurrences *)

Lemma first_index_lt (x : string) (l : list string) :
  In x l -> first_index x l < length l.
Proof.
  induction l as [|y l IH]; simpl; [easy|].
  destruct (String.eqb_spec x y); [lia|]. intros [E|H]; [congruence|].
  apply IH in H. lia.
Qed.

Lemma first_index_app_in (x : string) (l m : list string) :
  In x l -> first_index x (l ++ m) = first_index x l.
Proof.
  induction l as [|y l IH]; simpl; [easy|].
  destruct (String.eqb_spec x y); [reflexivity|]. intros [E|H]; [congruence|].
  f_equal. now apply IH.
Qed.

Lemma first_index_snoc_new (x : string) (l : list string) :
  ~ In x l -> first_index x (l ++ [x]) = length l.
Proof.
  induction l as [|y l IH]; simpl; [now rewrite String.eqb_refl|].
  intros H. destruct (String.eqb_spec x y) as [E|N]; [symmetry in E; tauto|].
  f_equal. apply IH. tauto.
Qed.

Lemma StronglySorted_in_ext {A : Type} (R R' : A -> A -> Prop) (l : list A) :
  (forall a b, In a l -> In b l -> R a b -> R' a b) ->
  StronglySorted R l -> StronglySorted R' l.
Proof.
  induction l as [|a l IH]; intros H S; [constructor|].
  inversion S as [|? ? S' F]; subst. constructor.
  - apply IH; auto. intros; apply H; simpl; auto.
  - rewrite Forall_forall in *. intros b Hb. apply H; simpl; auto.
Qed.

Lemma StronglySorted_snoc {A : Type} (R : A -> A -> Prop) (l : list A) (x : A) :
  StronglySorted R l -> Forall (fun a => R a x) l -> StronglySorted R (l ++ [x]).
Proof.
  induction 1 as [|a l S IH F]; intros H; simpl.
  - repeat constructor.
  - inversion H; subst. constructor; [now apply IH|].
    apply Forall_app. split; auto.
Qed.

Lemma firstn_incl {A : Type} (n : nat) (l : list A) (x : A) :
  In x (firstn n l) -> In x l.
Proof.
  revert n. induction l as [|a l IH]; intros [|n]; simpl; try easy.
  intros [E|H]; [now left | right; eauto].
Qed.

Lemma StronglySorted_firstn {A : Type} (R : A -> A -> Prop) (n : nat) (l : list A) :
  StronglySorted R l -> StronglySorted R (firstn n l).
Proof.
  intros S. revert n. induction S as [|a l S IH F]; intros [|n]; simpl; try constructor.
  - apply IH.
  - rewrite Forall_forall in *. intros b Hb. apply F. eapply firstn_incl; eauto.
Qed.

Lemma StronglySorted_keys {V : Type} (R : string -> string -> Prop) (d : list (string * V)) :
  StronglySorted R (dict_keys d) <-> StronglySorted (fun p q => R (fst p) (fst q)) d.
Proof.
  unfold dict_keys. induction d as [|p d IH]; simpl; split; intros S; try constructor;
    inversion S as [|? ? S' F]; subst.
  - now apply IH.
  - rewrite Forall_forall in *. intros q Hq. apply F. now apply in_map.
  - now apply IH.
  - rewrite Forall_forall in *. intros k (q & <- & Hq)%in_map_iff. auto.
Qed.

(** The items of a counter are in the order of their first occurrence. *)
Lemma Counter_order (l : list string) :
  StronglySorted (earlier l) (dict_keys (Counter l)).
Proof.
  induction l as [|y l IH] using rev_ind; [constructor|].
  rewrite Counter_snoc.
  destruct (in_dec string_dec y (dict_keys (Counter l))) as [Hy|Hy].
  - rewrite counter_add_old by exact Hy.
    revert IH. apply StronglySorted_in_ext.
    intros a b Ha Hb. apply (proj1 (Counter_keys_in l _)) in Ha, Hb. unfold earlier. intros H.
    now rewrite !first_index_app_in by assumption.
  - rewrite counter_add_new by exact Hy. unfold dict_keys. rewrite map_app. simpl.
    apply StronglySorted_snoc.
    + revert IH. apply StronglySorted_in_ext.
      intros a b Ha Hb. apply (proj1 (Counter_keys_in l _)) in Ha, Hb. unfold earlier. intros H.
      now rewrite !first_index_app_in by assumption.
    + apply Forall_forall. intros a Ha. apply (proj1 (Counter_keys_in l _)) in Ha. unfold earlier.
      rewrite Counter_keys_in in Hy.
      rewrite first_index_app_in, first_index_snoc_new by assumption.
      now apply first_index_lt.
Qed.

(** *** The stable descending sort *)

Lemma insert_desc_perm (p : string * nat) (l : list (string * nat)) :
  Permutation (insert_desc p l) (p :: l).
Proof.
  induction l as [|q l IH]; simpl; [reflexivity|].
  destruct (snd q <=? snd p); [reflexivity|].
  rewrite IH. apply perm_swap.
Qed.

Lemma sorted_desc_perm (l : list (string * nat)) : Permutation (sorted_desc l) l.
Proof.
  induction l as [|p l IH]; simpl; [reflexivity|].
  rewrite insert_desc_perm. now constructor.
Qed.

Lemma sorted_desc_length (l : list (string * nat)) : length (sorted_desc l) = length l.
Proof. apply Permutation_length, sorted_desc_perm. Qed.

Section Stable.

(** [T] is the order of the input: the order that ties must keep. *)
Variable T : string * nat -> string * nat -> Prop.

Lemma insert_desc_sorted (p : string * nat) (l : list (string * nat)) :
  Forall (T p) l -> StronglySorted (lex T) l -> StronglySorted (lex T) (insert_desc p l).
Proof.
  induction l as [|q l IH]; simpl; intros HT S.
  - repeat constructor.
  - inversion S as [|? ? S' F]; inversion HT as [|? ? Tq Tl]; subst.
    destruct (snd q <=? snd p) eqn:E.
    + apply Nat.leb_le in E. constructor; [exact S|].
      assert (L : forall r, snd r <= snd p -> T p r -> lex T p r).
      { intros r Hr Tr. unfold lex.
        destruct (Nat.eq_dec (snd p) (snd r)); [right; now split | left; lia]. }
      constructor; [now apply L|].
      rewrite Forall_forall in *. intros r Hr.
      apply L; [|now apply Tl]. destruct (F r Hr) as [H|[H _]]; lia.
    + apply Nat.leb_gt in E. constructor; [now apply IH|].
      rewrite Forall_forall in *. intros r Hr.
      apply (Permutation_in _ (insert_desc_perm p l)) in Hr as [<-|Hr]; auto.
      unfold lex. lia.
Qed.

Lemma sorted_desc_sorted (l : list (string * nat)) :
  StronglySorted T l -> StronglySorted (lex T) (sorted_desc l).
Proof.
  induction 1 as [|p l S IH F]; simpl; [constructor|].
  apply insert_desc_sorted; [|exact IH].
  rewrite Forall_forall in *. intros q Hq. apply F.
  now apply (Permutation_in _ (sorted_desc_perm l)).
Qed.

End Stable.

(** C3. The ranked table of a stream lists its (item, count) pairs by
    descending count, two items of equal count in the order of their first
    occurrence in the stream; each listed count is the number of
    occurrences of the item.  For the counts a:3, b:3, c:1 with [a] met
    before [b], the ranking is a, b, c. *)
Theorem most_common_ranked (stream : list string) (n : nat) :
  StronglySorted (ranks_before stream) (most_common n (Counter stream))
  /\ Forall (fun p => snd p = count_occ string_dec stream (fst p))
            (most_common n (Counter stream))
  /\ most_common 3 (Counter ["a"; "b"; "c"; "b"; "a"; "b"; "a"])
     = [("a", 3); ("b", 3); ("c", 1)]
  /\ most_common 3 (Counter ["c"; "a"; "b"; "b"; "a"; "b"; "a"])
     = [("a", 3); ("b", 3); ("c", 1)].
Proof.
  split; [|split; [|split; reflexivity]].
  - apply StronglySorted_firstn.
    apply (sorted_desc_sorted (fun p q => earlier stream (fst p) (fst q))).
    apply StronglySorted_keys, Counter_order.
  - apply Forall_forall. intros p Hp%firstn_incl.
    apply (Permutation_in _ (sorted_desc_perm _)) in Hp.
    pose proof (Counter_counts stream) as H. rewrite Forall_forall in H. auto.
Qed.

(** *** Dictionaries *)

Lemma dict_alter_keys {V : Type} (f : V -> V) (k : string) (d : list (string * V)) :
  dict_keys (dict_alter f k d) = dict_keys d.
Proof.
  induction d as [|[k' v] d IH]; simpl; [reflexivity|].
  destruct (String.eqb k k'); simpl; [reflexivity | now f_equal].
Qed.

Lemma dict_get_alter {V : Type} (f : V -> V) (k k' : string) (d : list (string * V)) :
  dict_get k' (dict_alter f k d)
  = if String.eqb k' k then option_map f (dict_get k d) else dict_get k' d.
Proof.
  induction d as [|[k0 v] d IH]; simpl; [now destruct (String.eqb k' k)|].
  destruct (String.eqb_spec k k0) as [->|N]; simpl.
  - destruct (String.eqb_spec k' k0); reflexivity.
  - rewrite IH. destruct (String.eqb_spec k' k) as [->|N'].
    + destruct (String.eqb_spec k k0); [contradiction | reflexivity].
    + reflexivity.
Qed.

(** An update that leaves a component [g] of the values alone leaves it alone
    in the whole dictionary. *)
Lemma dict_alter_values {V W : Type} (g : V -> W) (f : V -> V) (k : string)
      (d : list (string * V)) :
  (forall v, g (f v) = g v) ->
  map g (dict_values (dict_alter f k d)) = map g (dict_values d).
Proof.
  intros H. induction d as [|[k' v] d IH]; simpl; [reflexivity|].
  destruct (String.eqb k k'); simpl; [now rewrite H | now f_equal].
Qed.

(** *** The loop body, field by field *)

Section Body.

Variable nlp : string -> list Token.
Variables (row : Row) (i : nat) (desc_col adj_col : string) (st : State).

Let st' := process_cell nlp row (i, (desc_col, adj_col)) st.
Let tokens := tokenize_description nlp (row desc_col).
Let nouns := extract_nouns nlp (row desc_col).
Let valid_adjs := filter_adjectives nlp (extract_adjectives (row adj_col)).

Ltac cell_cases :=
  subst st' tokens nouns valid_adjs; unfold process_cell;
  destruct (isna (row adj_col)); destruct (i =? 1);
  destruct (nonempty (filter_adjectives nlp (extract_adjectives (row adj_col))));
  reflexivity.

Lemma process_cell_all_tokens :
  all_tokens st' = if i =? 1 then all_tokens st else all_tokens st ++ tokens.
Proof. cell_cases. Qed.

Lemma process_cell_all_nouns :
  all_nouns st' = if i =? 1 then all_nouns st else all_nouns st ++ nouns.
Proof. cell_cases. Qed.

Lemma process_cell_all_adjectives :
  all_adjectives st'
  = if isna (row adj_col) || (i =? 1) then all_adjectives st
    else all_adjectives st ++ valid_adjs.
Proof. cell_cases. Qed.

Lemma process_cell_overall_adj_cells :
  overall_adj_cells st'
  = if isna (row adj_col) || (i =? 1) then overall_adj_cells st
    else overall_adj_cells st + 1.
Proof. cell_cases. Qed.

Lemma process_cell_overall_adj_valid_cells :
  overall_adj_valid_cells st'
  = if isna (row adj_col) || (i =? 1) || negb (nonempty valid_adjs)
    then overall_adj_valid_cells st
    else overall_adj_valid_cells st + 1.
Proof. cell_cases. Qed.

Lemma process_cell_adj_stats :
  adj_stats st'
  = if isna (row adj_col) then adj_stats st
    else if nonempty valid_adjs
         then dict_alter Stat.incr_valid_cells adj_col
                         (dict_alter Stat.incr_cells adj_col (adj_stats st))
         else dict_alter Stat.incr_cells adj_col (adj_stats st).
Proof. cell_cases. Qed.

Lemma process_cell_image_results :
  image_results st'
  = let d := dict_alter (Res.extend_nouns nouns) (image_key i)
               (dict_alter (Res.extend_all_tokens tokens) (image_key i)
                           (image_results st)) in
    if isna (row adj_col) then d
    else dict_alter (Res.extend_adjectives valid_adjs) (image_key i) d.
Proof. cell_cases. Qed.

(** The keys of both dictionaries never change. *)
Lemma process_cell_keys :
  dict_keys (image_results st') = dict_keys (image_results st)
  /\ dict_keys (adj_stats st') = dict_keys (adj_stats st).
Proof.
  rewrite process_cell_image_results, process_cell_adj_stats. simpl.
  split.
  - destruct (isna (row adj_col)); now rewrite ?dict_alter_keys.
  - destruct (isna (row adj_col)); [reflexivity|].
    destruct (nonempty valid_adjs); now rewrite ?dict_alter_keys.
Qed.

End Body.

(** *** The row loop *)

Section Loop.

Variable nlp : string -> list Token.

Lemma enumerate_image_pairs :
  enumerate image_pairs
  = [(0, ("Description_1", "Adjectives_1")); (1, ("Description_2", "Adjectives_2"));
     (2, ("Description_3", "Adjectives_3")); (3, ("Description_4", "Adjectives_4"));
     (4, ("Description_5", "Adjectives_5")); (5, ("Description_6", "Adjectives_6"))].
Proof. reflexivity. Qed.

Lemma fold_left_map {A B C : Type} (f : A -> B -> A) (g : C -> B) (l : list C) (a : A) :
  fold_left f (map g l) a = fold_left (fun a x => f a (g x)) l a.
Proof. revert a. induction l as [|x l IH]; simpl; intros a; [reflexivity | apply IH]. Qed.

Lemma run_cells_app (vs ws : list (Row * (nat * (string * string)))) (st : State) :
  run_cells nlp (vs ++ ws) st = run_cells nlp ws (run_cells nlp vs st).
Proof. unfold run_cells. apply fold_left_app. Qed.

Lemma run_cells_cons (row : Row) (ip : nat * (string * string))
      (vs : list (Row * (nat * (string * string)))) (st : State) :
  run_cells nlp ((row, ip) :: vs) st = run_cells nlp vs (process_cell nlp row ip st).
Proof. reflexivity. Qed.

Lemma run_cells_row (row : Row) (st : State) :
  run_cells nlp (map (pair row) (enumerate image_pairs)) st = process_row nlp st row.
Proof. unfold run_cells, process_row. now rewrite fold_left_map. Qed.

Lemma fold_process_row (data : list Row) (st : State) :
  fold_left (process_row nlp) data st = run_cells nlp (visits data) st.
Proof.
  revert st. induction data as [|row data IH]; intros st; [reflexivity|].
  change (visits (row :: data))
    with (map (pair row) (enumerate image_pairs) ++ visits data).
  rewrite run_cells_app, run_cells_row. apply IH.
Qed.

(** The two nested loops visit the cells in the order of [visits]. *)
Lemma run_visits (data : list Row) : run nlp data = run_cells nlp (visits data) init_state.
Proof. apply fold_process_row. Qed.

Lemma visits_pairs (data : list Row) :
  Forall (fun v => In (snd v) (enumerate image_pairs)) (visits data).
Proof.
  apply Forall_forall. intros [row ip] H. unfold visits in H.
  apply in_flat_map in H as (r & _ & H). apply in_map_iff in H as (ip' & E & H).
  injection E as _ <-. exact H.
Qed.

(** Both dictionaries keep the keys of their initialisation, so that every
    in-place update of the loop finds its entry. *)
Lemma run_cells_keys (vs : list (Row * (nat * (string * string)))) (st : State) :
  dict_keys (image_results (run_cells nlp vs st)) = dict_keys (image_results st)
  /\ dict_keys (adj_stats (run_cells nlp vs st)) = dict_keys (adj_stats st).
Proof.
  revert st. induction vs as [|[row [i [dc ac]]] vs IH]; intros st; [now split|].
  rewrite run_cells_cons.
  destruct (IH (process_cell nlp row (i, (dc, ac)) st)) as [-> ->].
  apply process_cell_keys.
Qed.

Lemma keys_main (vs : list (Row * (nat * (string * string)))) :
  dict_keys (image_results (run_cells nlp vs init_state)) = image_keys
  /\ dict_keys (adj_stats (run_cells nlp vs init_state)) = adj_cols.
Proof. destruct (run_cells_keys vs init_state) as [-> ->]. now split. Qed.

End Loop.

(** A dictionary with six known keys is six entries. *)
Lemma six_entries {V : Type} (d : list (string * V)) (k1 k2 k3 k4 k5 k6 : string) :
  dict_keys d = [k1; k2; k3; k4; k5; k6] ->
  exists v1 v2 v3 v4 v5 v6,
    d = [(k1, v1); (k2, v2); (k3, v3); (k4, v4); (k5, v5); (k6, v6)].
Proof.
  destruct d as [|[a1 v1] [|[a2 v2] [|[a3 v3] [|[a4 v4] [|[a5 v5] [|[a6 v6] [|? ?]]]]]]];
    simpl; try discriminate.
  intros E. injection E as -> -> -> -> -> ->. now exists v1, v2, v3, v4, v5, v6.
Qed.

(** *** The counters of the report *)

Section Counters.

Variable nlp : string -> list Token.

Ltac split_cols H :=
  simpl in H;
  repeat match type of H with
         | _ \/ _ => destruct H as [H|H]
         | False => contradiction
         end; subst.

Lemma process_cell_counters (row : Row) (ip : nat * (string * string)) (st : State) :
  In ip (enumerate image_pairs) ->
  dict_keys (adj_stats st) = adj_cols ->
  counters_ok st -> counters_ok (process_cell nlp row ip st).
Proof.
  intros Hip Hk (Hv & Ho & Hs).
  apply six_entries in Hk as (s1 & s2 & s3 & s4 & s5 & s6 & E).
  pose proof (Hv "Adjectives_1") as H1. pose proof (Hv "Adjectives_2") as H2.
  pose proof (Hv "Adjectives_3") as H3. pose proof (Hv "Adjectives_4") as H4.
  pose proof (Hv "Adjectives_5") as H5. pose proof (Hv "Adjectives_6") as H6.
  clear Hv. unfold valid_cells_of, cells_of in *. rewrite E in *.
  simpl in H1, H2, H3, H4, H5, H6, Hs.
  assert (A1 := H1 ltac:(tauto)). assert (A2 := H2 ltac:(tauto)).
  assert (A3 := H3 ltac:(tauto)). assert (A4 := H4 ltac:(tauto)).
  assert (A5 := H5 ltac:(tauto)). assert (A6 := H6 ltac:(tauto)).
  clear H1 H2 H3 H4 H5 H6.
  rewrite enumerate_image_pairs in Hip. split_cols Hip.
  all: unfold counters_ok, valid_cells_of, cells_of;
    rewrite process_cell_adj_stats, process_cell_overall_adj_cells,
      process_cell_overall_adj_valid_cells, E;
    destruct (isna (row _));
    destruct (nonempty (filter_adjectives nlp (extract_adjectives (row _))));
    simpl; (split; [|split; lia]); intros col Hc; split_cols Hc; simpl; lia.
Qed.

Lemma run_cells_counters (vs : list (Row * (nat * (string * string)))) (st : State) :
  Forall (fun v => In (snd v) (enumerate image_pairs)) vs ->
  dict_keys (adj_stats st) = adj_cols ->
  counters_ok st -> counters_ok (run_cells nlp vs st).
Proof.
  revert st. induction vs as [|[row ip] vs IH]; intros st Hvs Hk Hc; [exact Hc|].
  inversion Hvs as [|? ? Hip Hvs']; subst. rewrite run_cells_cons. apply IH; auto.
  - destruct ip as [i [dc ac]].
    now rewrite (proj2 (process_cell_keys nlp row i dc ac st)).
  - now apply process_cell_counters.
Qed.

Lemma counters_ok_init : counters_ok init_state.
Proof.
  split; [|split; reflexivity]. intros col Hc. split_cols Hc; apply Nat.le_refl.
Qed.

End Counters.

Section Points.

Variable nlp : string -> list Token.

Lemma run_statements_app (fs gs : list (State -> State)) (st : State) :
  run_statements (fs ++ gs) st = run_statements gs (run_statements fs st).
Proof. unfold run_statements. apply fold_left_app. Qed.

(** The loop body is the composition of its assignments. *)
Lemma process_cell_statements (row : Row) (ip : nat * (string * string)) (st : State) :
  process_cell nlp row ip st = run_statements (cell_statements nlp row ip) st.
Proof.
  destruct ip as [i [dc ac]]. unfold process_cell, cell_statements.
  destruct (isna (row ac)); destruct (i =? 1);
    destruct (nonempty (filter_adjectives nlp (extract_adjectives (row ac))));
    reflexivity.
Qed.

Lemma run_cells_statements (vs : list (Row * (nat * (string * string)))) (st : State) :
  run_cells nlp vs st
  = run_statements (flat_map (fun v => cell_statements nlp (fst v) (snd v)) vs) st.
Proof.
  revert st. induction vs as [|[row ip] vs IH]; intros st; [reflexivity|].
  rewrite run_cells_cons. cbn [flat_map fst snd].
  now rewrite run_statements_app, IH, process_cell_statements.
Qed.

Lemma run_all_statements (data : list Row) :
  run nlp data = run_statements (statements nlp data) init_state.
Proof. rewrite run_visits. apply run_cells_statements. Qed.

(** One point inside the body for the column [ac]. *)
Ltac point_ok Hv Ho ac :=
  split;
  [ let col := fresh "col" in
    let Hc := fresh "Hc" in
    let E := fresh "E" in
    intros col; pose proof (Hv col) as Hc;
    unfold valid_cells_of, cells_of in *;
    cbn [adj_stats upd_image upd_adj_stats extend_all_tokens extend_all_adjectives
           extend_all_nouns incr_overall_adj_cells incr_overall_adj_valid_cells];
    rewrite ?dict_get_alter;
    destruct (String.eqb_spec col ac) as [E|E]; [subst col|];
    rewrite ?String.eqb_refl;
    repeat match goal with
           | |- context [dict_get ?k (adj_stats ?s)] => destruct (dict_get k (adj_stats s))
           end;
    cbn in *; lia
  | cbn; lia ].

(** Inside one loop body, after any number of its assignments: the counter
    of processed cells is incremented before the counter of valid cells. *)
Lemma cell_points_ok (row : Row) (ip : nat * (string * string)) (st : State) (j : nat) :
  valid_within_cells st ->
  valid_within_cells (run_statements (firstn j (cell_statements nlp row ip)) st).
Proof.
  intros [Hv Ho]. destruct ip as [i [dc ac]].
  unfold cell_statements, valid_within_cells.
  destruct (isna (row ac)); destruct (i =? 1);
    destruct (nonempty (filter_adjectives nlp (extract_adjectives (row ac))));
    cbn [negb app];
    do 11 (destruct j as [|j]; [cbn [firstn run_statements fold_left]; point_ok Hv Ho ac|]);
    cbn [firstn run_statements fold_left]; point_ok Hv Ho ac.
Qed.

Lemma statements_points_ok (vs : list (Row * (nat * (string * string))))
      (st : State) (k : nat) :
  valid_within_cells st ->
  valid_within_cells
    (run_statements
       (firstn k (flat_map (fun v => cell_statements nlp (fst v) (snd v)) vs)) st).
Proof.
  revert st k. induction vs as [|[row ip] vs IH]; intros st k H.
  - now rewrite firstn_nil.
  - cbn [flat_map fst snd]. rewrite firstn_app, run_statements_app.
    apply IH. now apply cell_points_ok.
Qed.

Lemma valid_within_cells_init : valid_within_cells init_state.
Proof.
  split; [|apply Nat.le_refl]. intros col. unfold valid_cells_of, cells_of.
  destruct (dict_get col (adj_stats init_state)) as [s|] eqn:E; [|apply Nat.le_refl].
  cbn in E.
  repeat match type of E with
         | (if ?b then _ else _) = _ => destruct b; [injection E as <-; apply Nat.le_refl|]
         end.
  discriminate.
Qed.

End Points.

(** C10, as the script has it. At every point of the row loop, that is
    after every single assignment of the loop body, each adjective column
    has valid_cells <= cells and the roll-up has overall_adj_valid_cells
    <= overall_adj_cells.  The sum is an invariant of the iterations
    only: after every processed cell (every completed iteration of the
    inner loop) and in the final state that the report prints,
    overall_adj_cells is the sum of the cells counters of the five
    included columns (all but Adjectives_2). *)
Theorem counters_invariant (nlp : string -> list Token) (data : list Row) (k : nat) :
  valid_within_cells (run_statements (firstn k (statements nlp data)) init_state)
  /\ counters_ok (run_cells nlp (firstn k (visits data)) init_state)
  /\ counters_ok (run nlp data)
  /\ run nlp data = run_statements (statements nlp data) init_state.
Proof.
  split; [apply statements_points_ok, valid_within_cells_init|].
  split; [|split; [rewrite run_visits | apply run_all_statements]];
    apply run_cells_counters;
    try reflexivity; try apply counters_ok_init; try apply visits_pairs.
  apply Forall_forall. intros v Hv%firstn_incl.
  pose proof (visits_pairs data) as H. rewrite Forall_forall in H. auto.
Qed.

(** C10 as the specification words it does not hold at every point:
    inside the loop body the cells counter of an included column is
    incremented (line 87) before the overall one (line 101).  After the
    first three assignments on a row whose Adjectives_1 cell is ["red"],
    the column has one processed cell and the roll-up still has none. *)
Lemma sum_broken_inside_body :
  cells_of "Adjectives_1"
    (run_statements (firstn 3 (statements Toy.toy_nlp [Toy.red_row])) init_state) = 1
  /\ overall_adj_cells
       (run_statements (firstn 3 (statements Toy.toy_nlp [Toy.red_row])) init_state) = 0
  /\ ~ counters_ok
        (run_statements (firstn 3 (statements Toy.toy_nlp [Toy.red_row])) init_state).
Proof.
  split; [vm_compute; reflexivity|]. split; [vm_compute; reflexivity|].
  intros (_ & _ & H). vm_compute in H. discriminate.
Qed.

(** *** Blank adjective fields *)

Lemma all_space_lower (v : string) :
  all_chars Str.is_space (Str.lower v) = all_chars Str.is_space v.
Proof. induction v as [|c v IH]; simpl; [reflexivity|]. now rewrite is_space_lower_char, IH. Qed.

Lemma lstrip_all_space (v : string) : all_chars Str.is_space v = true -> Str.lstrip v = "".
Proof.
  induction v as [|c v IH]; simpl; [reflexivity|].
  intros [Hc Hv]%andb_prop. rewrite Hc. now apply IH.
Qed.

(** A blank field is a cell of the frame, and it has no candidate. *)
Lemma extract_adjectives_blank (v : string) :
  all_chars Str.is_space v = true -> extract_adjectives (Some v) = [].
Proof.
  intros H. unfold extract_adjectives, normalize, Str.strip.
  rewrite lstrip_all_space by now rewrite all_space_lower. reflexivity.
Qed.

Lemma dict_get_present {V : Type} (k : string) (d : list (string * V)) :
  In k (dict_keys d) -> exists v, dict_get k d = Some v.
Proof.
  induction d as [|[k' v] d IH]; simpl; [easy|].
  destruct (String.eqb_spec k k') as [->|N]; [now exists v|].
  intros [E|H]; [congruence | now apply IH].
Qed.

(** C2, as the script has it. A missing (NA) adjective field contributes
    no adjective and increments no counter.  A blank field that is not
    missing (the empty string, or whitespace only) contributes no
    adjective and leaves the valid-cell counters alone, but it is counted
    as processed: the cells counter of its column goes up by one, and so
    does the overall one when the stimulus is not stimulus 2. *)
Theorem blank_field_contribution (nlp : string -> list Token) (row : Row)
        (i : nat) (desc_col adj_col : string) (st : State) :
  is_blank (row adj_col) = true ->
  let st' := process_cell nlp row (i, (desc_col, adj_col)) st in
  image_adjectives st' = image_adjectives st
  /\ all_adjectives st' = all_adjectives st
  /\ (forall col, valid_cells_of col st' = valid_cells_of col st)
  /\ overall_adj_valid_cells st' = overall_adj_valid_cells st
  /\ (isna (row adj_col) = true ->
      adj_stats st' = adj_stats st /\ overall_adj_cells st' = overall_adj_cells st)
  /\ (isna (row adj_col) = false ->
      adj_stats st' = dict_alter Stat.incr_cells adj_col (adj_stats st)
      /\ (In adj_col (dict_keys (adj_stats st)) ->
          cells_of adj_col st' = cells_of adj_col st + 1)
      /\ overall_adj_cells st'
         = if i =? 1 then overall_adj_cells st else overall_adj_cells st + 1).
Proof.
  intros Hb st'. subst st'. unfold image_adjectives, valid_cells_of, cells_of.
  rewrite process_cell_image_results, process_cell_all_adjectives,
    process_cell_adj_stats, process_cell_overall_adj_cells,
    process_cell_overall_adj_valid_cells.
  destruct (row adj_col) as [v|] eqn:Ev; simpl in Hb.
  - rewrite (extract_adjectives_blank v Hb). simpl.
    rewrite orb_true_r. repeat split; try easy.
    + rewrite !(dict_alter_values Res.adjectives); auto.
      intros r. simpl. apply app_nil_r.
    + destruct (i =? 1); [reflexivity | simpl; apply app_nil_r].
    + intros col. rewrite dict_get_alter.
      destruct (String.eqb_spec col adj_col) as [->|N]; [|reflexivity].
      now destruct (dict_get adj_col (adj_stats st)).
    + intros (s & Hs)%dict_get_present.
      now rewrite dict_get_alter, String.eqb_refl, Hs.
  - simpl. repeat split; try easy.
    rewrite !(dict_alter_values Res.adjectives); auto.
Qed.

Lemma blank_field_contribution_witness :
  all_adjectives
    (process_cell Toy.toy_nlp Toy.blank_row_3 (2, ("Description_3", "Adjectives_3")) init_state)
  = []
  /\ valid_cells_of "Adjectives_3"
       (process_cell Toy.toy_nlp Toy.blank_row_3 (2, ("Description_3", "Adjectives_3")) init_state)
     = 0
  /\ cells_of "Adjectives_3"
       (process_cell Toy.toy_nlp Toy.blank_row_3 (2, ("Description_3", "Adjectives_3")) init_state)
     = 1
  /\ overall_adj_cells
       (process_cell Toy.toy_nlp Toy.blank_row_3 (2, ("Description_3", "Adjectives_3")) init_state)
     = 1.
Proof.
  destruct (blank_field_contribution Toy.toy_nlp Toy.blank_row_3 2
              "Description_3" "Adjectives_3" init_state eq_refl)
    as (_ & Ha & Hv & _ & _ & Hc).
  destruct (Hc eq_refl) as (_ & Hcells & Ho).
  split; [exact Ha|]. split; [exact (Hv "Adjectives_3")|].
  split; [|exact Ho]. apply Hcells. simpl. do 2 right. left. reflexivity.
Defined.

(** C2 as the specification words it does not hold: a whitespace-only
    adjective field is counted as a processed cell, in its column and in
    the roll-up. *)
Lemma blank_field_counted :
  is_blank (Toy.blank_row_1 "Adjectives_1") = true
  /\ cells_of "Adjectives_1" init_state = 0
  /\ cells_of "Adjectives_1" (run Toy.toy_nlp [Toy.blank_row_1]) = 1
  /\ overall_adj_cells init_state = 0
  /\ overall_adj_cells (run Toy.toy_nlp [Toy.blank_row_1]) = 1
  /\ ~ (cells_of "Adjectives_1" (run Toy.toy_nlp [Toy.blank_row_1])
        = cells_of "Adjectives_1" init_state
        /\ overall_adj_cells (run Toy.toy_nlp [Toy.blank_row_1])
           = overall_adj_cells init_state).
Proof. vm_compute. repeat split. intros [H _]. discriminate. Qed.

(** *** The exported table *)

Lemma most_common_full (m : nat) (c : counter) :
  length c <= m -> most_common m c = ranked c.
Proof.
  intros H. unfold most_common, ranked. apply firstn_all2.
  now rewrite sorted_desc_length.
Qed.

Lemma ranked_length (c : counter) : length (ranked c) = length c.
Proof. apply sorted_desc_length. Qed.

Lemma blanks_repeat (m k : nat) :
  blanks (Z.of_nat m - Z.of_nat k) = repeat (CsvStr "") (m - k).
Proof. unfold blanks. f_equal. lia. Qed.

Lemma string_app_assoc (a b c : string) : ((a ++ b) ++ c = a ++ (b ++ c))%string.
Proof. induction a as [|x a IH]; simpl; [reflexivity | now rewrite IH]. Qed.

(** When no table is longer than [m], the columns of the script are the
    whole ranked tables, padded. *)
Lemma image_columns_full (m : nat) (image : string) (fr : Freq.t) :
  length (Freq.description_word_freq fr) <= m ->
  length (Freq.adjective_freq fr) <= m ->
  length (Freq.noun_freq fr) <= m ->
  image_columns m image fr
  = report_columns m image (Freq.description_word_freq fr) (Freq.adjective_freq fr)
                   (Freq.noun_freq fr).
Proof.
  intros Hw Ha Hn. unfold image_columns, report_columns, padded_columns.
  rewrite !most_common_full, !blanks_repeat by assumption.
  now rewrite !string_app_assoc.
Qed.

Lemma overall_columns_full (m : nat) (st : State) :
  length (overall_description_word_freq st) <= m ->
  length (overall_adjective_freq st) <= m ->
  length (overall_noun_freq st) <= m ->
  overall_columns m st
  = report_columns m "Overall" (overall_description_word_freq st)
                   (overall_adjective_freq st) (overall_noun_freq st).
Proof.
  intros Hw Ha Hn. unfold overall_columns, report_columns, padded_columns.
  rewrite !most_common_full, !ranked_length, !blanks_repeat by assumption.
  reflexivity.
Qed.

Lemma padded_columns_length (m : nat) (name : string) (c : counter) :
  length c <= m ->
  Forall (fun col => length (snd col) = m) (padded_columns m name c).
Proof.
  intros H. unfold padded_columns, words, freqs.
  repeat constructor; simpl;
    rewrite length_app, length_map, repeat_length, ranked_length; lia.
Qed.

Lemma report_columns_length (m : nat) (prefix : string) (w a n : counter) :
  length w <= m -> length a <= m -> length n <= m ->
  Forall (fun col => length (snd col) = m) (report_columns m prefix w a n).
Proof.
  intros Hw Ha Hn. unfold report_columns.
  rewrite !Forall_app. auto using padded_columns_length.
Qed.

Lemma NoDup_csv_columns : NoDup csv_columns.
Proof.
  assert (E : nodup string_dec csv_columns = csv_columns) by (vm_compute; reflexivity).
  rewrite <- E. apply NoDup_nodup.
Qed.

Lemma dict_set_fresh {V : Type} (k : string) (v : V) (d : list (string * V)) :
  ~ In k (dict_keys d) -> dict_set k v d = d ++ [(k, v)].
Proof.
  induction d as [|[k' v'] d IH]; simpl; [reflexivity|].
  intros H. destruct (String.eqb_spec k k') as [->|N]; [tauto|].
  f_equal. apply IH. tauto.
Qed.

(** Updating with new, distinct keys appends them in order. *)
Lemma dict_update_fresh {V : Type} (d new : list (string * V)) :
  NoDup (dict_keys (d ++ new)) -> dict_update d new = d ++ new.
Proof.
  revert d. induction new as [|[k v] new IH]; intros d H.
  - simpl. now rewrite app_nil_r.
  - change (dict_update d ((k, v) :: new)) with (dict_update (dict_set k v d) new).
    rewrite dict_set_fresh.
    + rewrite IH; rewrite <- app_assoc; [reflexivity | exact H].
    + unfold dict_keys in *. rewrite map_app in H. simpl in H.
      apply NoDup_remove_2 in H. rewrite in_app_iff in H. tauto.
Qed.

Lemma NoDup_keys_app_l {V : Type} (d e : list (string * V)) :
  NoDup (dict_keys (d ++ e)) -> NoDup (dict_keys d).
Proof.
  unfold dict_keys. rewrite map_app. apply NoDup_app_remove_r.
Qed.

Lemma fold_dict_update {A V : Type} (f : A -> list (string * V)) (l : list A)
      (d : list (string * V)) :
  NoDup (dict_keys (d ++ flat_map f l)) ->
  fold_left (fun d x => dict_update d (f x)) l d = d ++ flat_map f l.
Proof.
  revert d. induction l as [|x l IH]; intros d H; simpl.
  - now rewrite app_nil_r.
  - simpl in H. rewrite app_assoc in H.
    rewrite dict_update_fresh by (eapply NoDup_keys_app_l; exact H).
    rewrite IH by exact H. now rewrite app_assoc.
Qed.

Lemma list_max_cons (x : nat) (l : list nat) : list_max (x :: l) = Nat.max x (list_max l).
Proof. reflexivity. Qed.

(** [max_rows] is the length of the longest of the twenty-one tables. *)
Lemma list_max_tables (frs : list Freq.t) :
  list_max (map (fun c => length (ranked c))
                (flat_map (fun fr => [Freq.description_word_freq fr; Freq.adjective_freq fr;
                                      Freq.noun_freq fr]) frs))
  = list_max (map (fun freq =>
                     Nat.max (length (Freq.description_word_freq freq))
                             (Nat.max (length (Freq.adjective_freq freq))
                                      (length (Freq.noun_freq freq)))) frs).
Proof.
  induction frs as [|fr frs IH]; [reflexivity|].
  cbn [flat_map app map]. rewrite !list_max_cons. rewrite IH, !ranked_length.
  now rewrite !Nat.max_assoc.
Qed.

Lemma max_rows_spec (st : State) : max_rows st = spec_rows st.
Proof.
  unfold max_rows, spec_rows, tables.
  rewrite map_app, list_max_app, list_max_tables. f_equal.
  cbn [map]. rewrite !list_max_cons, !ranked_length. cbn [list_max fold_right].
  now rewrite Nat.max_0_r.
Qed.

Lemma list_max_bound (l : list nat) : Forall (fun k => k <= list_max l) l.
Proof. apply list_max_le. apply Nat.le_refl. Qed.

Lemma tables_bound (st : State) :
  Forall (fun c => length c <= max_rows st) (tables st).
Proof.
  rewrite max_rows_spec. unfold spec_rows. apply Forall_forall. intros c Hc.
  rewrite <- ranked_length.
  pose proof (list_max_bound (map (fun c => length (ranked c)) (tables st))) as B.
  rewrite Forall_forall in B. apply B.
  apply (in_map (fun c => length (ranked c))). exact Hc.
Qed.

Lemma report_columns_keys (m : nat) (prefix : string) (w a n : counter) :
  dict_keys (report_columns m prefix w a n) = column_names prefix.
Proof.
  unfold report_columns, padded_columns, column_names, dict_keys.
  cbn [map app flat_map fst]. now rewrite !string_app_assoc.
Qed.

Lemma spec_csv_keys (st : State) :
  dict_keys (spec_csv st)
  = flat_map column_names (dict_keys (image_results st) ++ ["Overall"]).
Proof.
  unfold spec_csv, image_frequencies.
  generalize (spec_rows st) as m. intros m.
  unfold dict_keys at 1. rewrite map_app, flat_map_app.
  fold (dict_keys (report_columns m "Overall" (overall_description_word_freq st)
                                  (overall_adjective_freq st) (overall_noun_freq st))).
  rewrite report_columns_keys. cbn [flat_map]. rewrite app_nil_r. f_equal.
  induction (image_results st) as [|ir irs IH]; [reflexivity|].
  cbn [map flat_map fst snd dict_keys]. rewrite map_app. f_equal; [|exact IH].
  apply report_columns_keys.
Qed.

Lemma fold_left_ext_in {A B : Type} (f g : A -> B -> A) (l : list B) (a : A) :
  (forall a x, In x l -> f a x = g a x) -> fold_left f l a = fold_left g l a.
Proof.
  revert a. induction l as [|x l IH]; intros a H; simpl; [reflexivity|].
  rewrite H by now left. apply IH. intros; apply H; now right.
Qed.

Lemma tables_bound_image (st : State) (ifr : string * Freq.t) :
  In ifr (image_frequencies st) ->
  length (Freq.description_word_freq (snd ifr)) <= max_rows st
  /\ length (Freq.adjective_freq (snd ifr)) <= max_rows st
  /\ length (Freq.noun_freq (snd ifr)) <= max_rows st.
Proof.
  intros H. pose proof (tables_bound st) as B. rewrite Forall_forall in B.
  assert (T : forall c, In c [Freq.description_word_freq (snd ifr);
                              Freq.adjective_freq (snd ifr);
                              Freq.noun_freq (snd ifr)] -> In c (tables st)).
  { intros c Hc. unfold tables. apply in_or_app. left.
    apply in_flat_map. exists (snd ifr). split; [|exact Hc].
    unfold dict_values. now apply in_map. }
  repeat split; apply B, T; simpl; auto.
Qed.

Lemma tables_bound_overall (st : State) :
  length (overall_description_word_freq st) <= max_rows st
  /\ length (overall_adjective_freq st) <= max_rows st
  /\ length (overall_noun_freq st) <= max_rows st.
Proof.
  pose proof (tables_bound st) as B. rewrite Forall_forall in B.
  repeat split; apply B; unfold tables; apply in_or_app; right; simpl; auto.
Qed.

(** With distinct column names, [csv_data] is the table of the
    specification. *)
Lemma csv_data_spec (st : State) :
  NoDup (flat_map column_names (dict_keys (image_results st) ++ ["Overall"])) ->
  csv_data st = spec_csv st.
Proof.
  intros N. rewrite <- spec_csv_keys in N. unfold spec_csv in *.
  rewrite <- max_rows_spec in *. unfold csv_data.
  rewrite (fold_left_ext_in _
             (fun csv_data ifr =>
                dict_update csv_data
                  (report_columns (max_rows st) (fst ifr)
                     (Freq.description_word_freq (snd ifr))
                     (Freq.adjective_freq (snd ifr)) (Freq.noun_freq (snd ifr))))).
  - rewrite fold_dict_update by (eapply NoDup_keys_app_l; exact N).
    destruct (tables_bound_overall st) as (Hw & Ha & Hn).
    rewrite overall_columns_full by assumption.
    now rewrite dict_update_fresh.
  - intros d ifr H. destruct (tables_bound_image st ifr H) as (Hw & Ha & Hn).
    now rewrite image_columns_full.
Qed.

Lemma spec_csv_lengths (st : State) :
  Forall (fun col => length (snd col) = max_rows st) (spec_csv st).
Proof.
  unfold spec_csv. rewrite <- max_rows_spec. apply Forall_app. split.
  - apply Forall_flat_map, Forall_forall. intros ifr H.
    destruct (tables_bound_image st ifr H) as (Hw & Ha & Hn).
    now apply report_columns_length.
  - destruct (tables_bound_overall st) as (Hw & Ha & Hn).
    now apply report_columns_length.
Qed.

(** C7. The exported table has as many rows as the longest of the
    twenty-one ranked tables (word, adjective and noun table of the six
    images and of the roll-up); it has forty-two columns, each one a whole
    ranked table followed by empty strings up to that length: nothing is
    truncated and all columns have the same length. *)
Theorem csv_data_padded (nlp : string -> list Token) (data : list Row) :
  max_rows (run nlp data) = spec_rows (run nlp data)
  /\ csv_data (run nlp data) = spec_csv (run nlp data)
  /\ dict_keys (csv_data (run nlp data)) = csv_columns
  /\ NoDup csv_columns
  /\ length (csv_data (run nlp data)) = 42
  /\ Forall (fun col => length (snd col) = max_rows (run nlp data))
            (csv_data (run nlp data)).
Proof.
  assert (K : dict_keys (image_results (run nlp data)) = image_keys).
  { rewrite run_visits. apply keys_main. }
  assert (E : csv_data (run nlp data) = spec_csv (run nlp data)).
  { apply csv_data_spec. rewrite K. apply NoDup_csv_columns. }
  assert (C : dict_keys (csv_data (run nlp data)) = csv_columns).
  { rewrite E, spec_csv_keys, K. reflexivity. }
  split; [apply max_rows_spec|]. split; [exact E|]. split; [exact C|].
  split; [apply NoDup_csv_columns|]. split.
  - unfold dict_keys in C. rewrite <- (length_map fst), C. reflexivity.
  - rewrite E. apply spec_csv_lengths.
Qed.

(** *** The excluded stimulus *)

Section Excluded.

Variable nlp : string -> list Token.

(** One cell changes the overall aggregates as a function of the aggregates
    and of its two fields; the cell of stimulus 2 (index 1) not at all. *)
Lemma process_cell_overall_congr (r1 r2 : Row) (i : nat) (dc ac : string)
      (st1 st2 : State) :
  i = 1 \/ (r1 dc = r2 dc /\ r1 ac = r2 ac) ->
  overall st1 = overall st2 ->
  overall (process_cell nlp r1 (i, (dc, ac)) st1)
  = overall (process_cell nlp r2 (i, (dc, ac)) st2).
Proof.
  intros H E. unfold overall in *.
  rewrite !process_cell_all_tokens, !process_cell_all_adjectives, !process_cell_all_nouns,
    !process_cell_overall_adj_cells, !process_cell_overall_adj_valid_cells.
  injection E as -> -> -> -> ->.
  destruct H as [->|[-> ->]]; [|reflexivity].
  cbn [Nat.eqb]. now rewrite !orb_true_r.
Qed.

Lemma process_row_overall (r1 r2 : Row) (st1 st2 : State) :
  same_outside_stimulus_2 r1 r2 ->
  overall st1 = overall st2 ->
  overall (process_row nlp st1 r1) = overall (process_row nlp st2 r2).
Proof.
  intros H E. unfold process_row. rewrite enumerate_image_pairs.
  cbn [fold_left].
  repeat (apply process_cell_overall_congr;
          [first [ left; reflexivity
                 | right; split; apply H; discriminate ] |]).
  exact E.
Qed.

Lemma fold_rows_overall (data1 data2 : list Row) (st1 st2 : State) :
  Forall2 same_outside_stimulus_2 data1 data2 ->
  overall st1 = overall st2 ->
  overall (fold_left (process_row nlp) data1 st1)
  = overall (fold_left (process_row nlp) data2 st2).
Proof.
  intros H. revert st1 st2.
  induction H as [|r1 r2 data1 data2 Hr H IH]; intros st1 st2 E; [exact E|].
  cbn [fold_left]. apply IH. now apply process_row_overall.
Qed.

(** The entry of an image after one cell. *)
Lemma process_cell_image_get (row : Row) (i : nat) (dc ac : string) (st : State)
      (k : string) :
  dict_get k (image_results (process_cell nlp row (i, (dc, ac)) st))
  = if String.eqb k (image_key i)
    then option_map
           (fun r => Res.mk (Res.all_tokens r ++ tokenize_description nlp (row dc))
                            (Res.adjectives r
                               ++ filter_adjectives nlp (extract_adjectives (row ac)))
                            (Res.nouns r ++ extract_nouns nlp (row dc)))
           (dict_get k (image_results st))
    else dict_get k (image_results st).
Proof.
  rewrite process_cell_image_results. cbv zeta.
  destruct (String.eqb_spec k (image_key i)) as [->|N].
  - destruct (row ac) as [v|]; cbn [isna]; rewrite !dict_get_alter, !String.eqb_refl;
      destruct (dict_get (image_key i) (image_results st)) as [r|]; try reflexivity.
    cbn [option_map]. unfold Res.extend_nouns, Res.extend_all_tokens. cbn.
    now rewrite app_nil_r.
  - apply String.eqb_neq in N.
    destruct (isna (row ac)); now rewrite !dict_get_alter, !N.
Qed.

(** Stimulus 2 keeps its own accumulators: after a row, the entry of
    Image_2 has gained what the row says about stimulus 2. *)
Lemma process_row_image_2 (row : Row) (st : State) :
  dict_get "Image_2" (image_results (process_row nlp st row))
  = option_map
      (fun r => Res.mk (Res.all_tokens r ++ tokenize_description nlp (row "Description_2"))
                       (Res.adjectives r
                          ++ filter_adjectives nlp (extract_adjectives (row "Adjectives_2")))
                       (Res.nouns r ++ extract_nouns nlp (row "Description_2")))
      (dict_get "Image_2" (image_results st)).
Proof.
  unfold process_row. rewrite enumerate_image_pairs. cbn [fold_left].
  now rewrite !process_cell_image_get.
Qed.

Lemma fold_rows_image_2 (data : list Row) (st : State) :
  dict_get "Image_2" (image_results (fold_left (process_row nlp) data st))
  = option_map
      (fun r =>
         Res.mk (Res.all_tokens r
                   ++ flat_map (fun row => tokenize_description nlp (row "Description_2")) data)
                (Res.adjectives r
                   ++ flat_map (fun row => filter_adjectives nlp
                                             (extract_adjectives (row "Adjectives_2"))) data)
                (Res.nouns r
                   ++ flat_map (fun row => extract_nouns nlp (row "Description_2")) data))
      (dict_get "Image_2" (image_results st)).
Proof.
  revert st. induction data as [|row data IH]; intros st; cbn [fold_left flat_map].
  - destruct (dict_get "Image_2" (image_results st)) as [[t a n]|]; [|reflexivity].
    cbn. now rewrite !app_nil_r.
  - rewrite IH, process_row_image_2.
    destruct (dict_get "Image_2" (image_results st)) as [[t a n]|]; [|reflexivity].
    cbn. now rewrite !app_assoc.
Qed.

End Excluded.

(** C4. Two input tables that differ only in the fields of stimulus 2
    (Description_2, Adjectives_2) give the same overall token, adjective
    and noun streams, hence the same overall frequency tables, and the
    same overall cell and valid-cell counters.  Stimulus 2 is still
    reported on its own: the entry Image_2 accumulates the tokens,
    adjectives and nouns of its two fields, and the exported table has
    its six columns. *)
Theorem overall_ignores_stimulus_2 (nlp : string -> list Token) (data1 data2 : list Row) :
  Forall2 same_outside_stimulus_2 data1 data2 ->
  overall (run nlp data1) = overall (run nlp data2)
  /\ overall_description_word_freq (run nlp data1)
     = overall_description_word_freq (run nlp data2)
  /\ overall_adjective_freq (run nlp data1) = overall_adjective_freq (run nlp data2)
  /\ overall_noun_freq (run nlp data1) = overall_noun_freq (run nlp data2)
  /\ dict_get "Image_2" (image_results (run nlp data1))
     = Some (Res.mk
               (flat_map (fun row => tokenize_description nlp (row "Description_2")) data1)
               (flat_map (fun row => filter_adjectives nlp
                                       (extract_adjectives (row "Adjectives_2"))) data1)
               (flat_map (fun row => extract_nouns nlp (row "Description_2")) data1))
  /\ incl (column_names "Image_2") (dict_keys (csv_data (run nlp data1))).
Proof.
  intros H.
  assert (E : overall (run nlp data1) = overall (run nlp data2)).
  { unfold run. now apply fold_rows_overall. }
  split; [exact E|].
  unfold overall_description_word_freq, overall_adjective_freq, overall_noun_freq.
  unfold overall in E. injection E as -> -> -> _ _.
  repeat split.
  - unfold run. rewrite fold_rows_image_2. reflexivity.
  - assert (K : dict_keys (image_results (run nlp data1)) = image_keys).
    { rewrite run_visits. apply keys_main. }
    rewrite csv_data_spec, spec_csv_keys, K by (rewrite K; apply NoDup_csv_columns).
    intros c Hc. apply in_flat_map. exists "Image_2". split; [|exact Hc].
    simpl. tauto.
Qed.

Lemma overall_ignores_stimulus_2_witness :
  Forall2 same_outside_stimulus_2 Toy.table_a Toy.table_b
  /\ overall (run Toy.toy_nlp Toy.table_a) = overall (run Toy.toy_nlp Toy.table_b).
Proof.
  assert (H : Forall2 same_outside_stimulus_2 Toy.table_a Toy.table_b).
  { repeat constructor. intros col H1 H2. unfold Toy.row_of. cbn [dict_get].
    destruct (String.eqb_spec col "Description_1"); [reflexivity|].
    destruct (String.eqb_spec col "Description_2"); [contradiction|].
    destruct (String.eqb_spec col "Adjectives_2"); [contradiction|].
    reflexivity. }
  split; [exact H|].
  exact (proj1 (overall_ignores_stimulus_2 Toy.toy_nlp Toy.table_a Toy.table_b H)).
Defined.

(** ** Further properties of the script *)

(** *** Tokens and nouns *)

Lemma subseq_refl {A : Type} (l : list A) : subseq l l.
Proof. induction l; constructor; assumption. Qed.

Lemma subseq_filter_map {A B : Type} (f : A -> B) (p q : A -> bool) (l : list A) :
  subseq (map f (filter (fun x => p x && q x) l)) (map f (filter p l)).
Proof.
  induction l as [|x l IH]; simpl; [constructor|].
  destruct (p x); simpl; [|exact IH].
  destruct (q x); simpl; now constructor.
Qed.

Lemma subseq_incl {A : Type} (l1 l2 : list A) : subseq l1 l2 -> incl l1 l2.
Proof.
  induction 1 as [|x l1 l2 H IH|x l1 l2 H IH]; intros y Hy; simpl in *; intuition.
Qed.

Lemma subseq_length {A : Type} (l1 l2 : list A) : subseq l1 l2 -> length l1 <= length l2.
Proof. induction 1; simpl; lia. Qed.

(** X1. The nouns of a description are among its tokens: [extract_nouns]
    returns a subsequence of what [tokenize_description] returns for the
    same cell (same lemmas, same order, some left out), so every noun is
    a token and there are at most as many nouns as tokens. *)
Theorem nouns_among_tokens (nlp : string -> list Token) (text : cell) :
  subseq (extract_nouns nlp text) (tokenize_description nlp text)
  /\ incl (extract_nouns nlp text) (tokenize_description nlp text)
  /\ length (extract_nouns nlp text) <= length (tokenize_description nlp text).
Proof.
  assert (S : subseq (extract_nouns nlp text) (tokenize_description nlp text)).
  { destruct text as [v|]; [|constructor]. unfold extract_nouns, tokenize_description.
    apply (subseq_filter_map lemma_ (fun token => is_alpha token && negb (is_stop token))). }
  auto using subseq_incl, subseq_length.
Qed.

(** X2. The description tokenizer and the noun extractor do not see the
    case of their input: a cell and its lowercased text give the same
    tokens and the same nouns. *)
Theorem description_case_insensitive (nlp : string -> list Token) (v : string) :
  tokenize_description nlp (Some (Str.lower v)) = tokenize_description nlp (Some v)
  /\ extract_nouns nlp (Some (Str.lower v)) = extract_nouns nlp (Some v).
Proof. unfold tokenize_description, extract_nouns. now rewrite lower_idem. Qed.

(** *** Counters and rankings *)

Lemma dict_get_absent {V : Type} (k : string) (d : list (string * V)) :
  ~ In k (dict_keys d) -> dict_get k d = None.
Proof.
  induction d as [|[k' v] d IH]; simpl; [reflexivity|].
  intros H. destruct (String.eqb_spec k k') as [->|N]; [tauto|]. apply IH. tauto.
Qed.

Lemma dict_get_in {V : Type} (k : string) (v : V) (d : list (string * V)) :
  NoDup (dict_keys d) -> In (k, v) d -> dict_get k d = Some v.
Proof.
  induction d as [|[k' v'] d IH]; simpl; [easy|].
  intros N H. inversion N as [|? ? Hk N']; subst.
  destruct H as [E|H].
  - injection E as -> ->. now rewrite String.eqb_refl.
  - destruct (String.eqb_spec k k') as [->|_]; [|now apply IH].
    exfalso. apply Hk. change k' with (fst (k', v)). now apply in_map.
Qed.

(** X3. A counter built from a stream answers, for every item, the number
    of its occurrences in the stream (0 for an item that does not occur);
    its items are the distinct elements of the stream, each listed once. *)
Theorem Counter_get_count (stream : list string) (elem : string) :
  counter_get elem (Counter stream) = count_occ string_dec stream elem
  /\ NoDup (dict_keys (Counter stream))
  /\ (In elem (dict_keys (Counter stream)) <-> In elem stream).
Proof.
  split; [|split; [apply Counter_keys_nodup | apply Counter_keys_in]].
  unfold counter_get.
  destruct (in_dec string_dec elem stream) as [H|H].
  - apply Counter_keys_in in H. unfold dict_keys in H.
    apply in_map_iff in H as ([k n] & E & H). simpl in E. subst k.
    rewrite (dict_get_in elem n) by (auto using Counter_keys_nodup).
    pose proof (Counter_counts stream) as C. rewrite Forall_forall in C.
    exact (C _ H).
  - rewrite dict_get_absent by now rewrite Counter_keys_in.
    symmetry. now apply count_occ_not_In.
Qed.

Lemma counter_add_total (x : string) (c : counter) :
  counter_total (counter_add x c) = S (counter_total c)
  /\ length (counter_add x c) <= S (length c).
Proof.
  unfold counter_total.
  induction c as [|[k n] c [IH1 IH2]]; simpl; [split; reflexivity|].
  destruct (String.eqb x k); simpl; [split; lia|]. rewrite IH1. split; lia.
Qed.

(** X4. Counting loses nothing: the counts of a counter add up to the
    length of the stream, and the counter has at most as many items as
    the stream has elements. *)
Theorem Counter_total (stream : list string) :
  counter_total (Counter stream) = length stream
  /\ length (Counter stream) <= length stream.
Proof.
  induction stream as [|x l [IH1 IH2]] using rev_ind; [split; reflexivity|].
  rewrite Counter_snoc, length_app. simpl.
  destruct (counter_add_total x (Counter l)) as [H1 H2]. rewrite H1, IH1. split; lia.
Qed.

(** X5. [most_common(n)] returns the [min n (len c)] first entries of the
    ranking, all of them entries of the counter; when [n] is at least the
    number of items, it returns every entry exactly once. *)
Theorem most_common_entries (n : nat) (c : counter) :
  length (most_common n c) = Nat.min n (length c)
  /\ incl (most_common n c) c
  /\ (length c <= n -> Permutation (most_common n c) c).
Proof.
  unfold most_common. split; [|split].
  - now rewrite length_firstn, sorted_desc_length.
  - intros p Hp%firstn_incl. now apply (Permutation_in _ (sorted_desc_perm c)).
  - intros H. rewrite firstn_all2 by now rewrite sorted_desc_length.
    apply sorted_desc_perm.
Qed.

Lemma most_common_entries_witness :
  Permutation (most_common 3 [("c", 1); ("a", 3); ("b", 3)]) [("c", 1); ("a", 3); ("b", 3)].
Proof.
  apply (most_common_entries 3 [("c", 1); ("a", 3); ("b", 3)]). simpl. lia.
Defined.

(** *** The validator on lists of candidates *)

(** X6. [filter_adjectives] validates each candidate on its own and keeps
    the order: the result for a concatenation is the concatenation of the
    results, there are at most as many results as candidates, and every
    result is the canonical form of a candidate of the list whose
    alphabetic tokens are all tagged ADJ. *)
Theorem filter_adjectives_pointwise (nlp : string -> list Token) (l1 l2 : list string) :
  filter_adjectives nlp (l1 ++ l2) = filter_adjectives nlp l1 ++ filter_adjectives nlp l2
  /\ length (filter_adjectives nlp l1) <= length l1
  /\ Forall (fun s => exists candidate,
                 In candidate l1 /\ s = canonical nlp candidate
                 /\ Forall (fun token => pos_ token = "ADJ") (alpha_tokens nlp candidate))
            (filter_adjectives nlp l1).
Proof.
  split; [apply filter_adjectives_app|]. split.
  - induction l1 as [|c l IH]; simpl; [lia|]. destruct (forallb _ _); simpl; lia.
  - induction l1 as [|c l IH]; simpl; [constructor|].
    assert (T : Forall (fun s => exists candidate,
                   In candidate (c :: l) /\ s = canonical nlp candidate
                   /\ Forall (fun token => pos_ token = "ADJ") (alpha_tokens nlp candidate))
                (filter_adjectives nlp l)).
    { revert IH. apply Forall_impl. intros s (d & Hd & E & F). exists d. simpl. auto. }
    destruct (forallb _ _) eqn:E; [|exact T].
    constructor; [|exact T]. exists c. apply forallb_ADJ in E. simpl. auto.
Qed.

(** *** The splitter on raw fields *)

Lemma is_sep_lower_char (c : ascii) : Str.is_sep (Str.lower_char c) = Str.is_sep c.
Proof. destruct c as [[] [] [] [] [] [] [] []]; reflexivity. Qed.

Lemma re_split_nonempty (s : string) : Str.re_split s <> [].
Proof.
  destruct (re_split_shape s) as (p & ps & rest & E & _). rewrite E. discriminate.
Qed.

(** The first piece of [re_split] and the non-empty ones after it. *)
Lemma re_split_sep_first (s : string) :
  Str.starts_with Str.is_sep s = true -> hd "" (Str.re_split s) = "".
Proof.
  induction s as [|c s IH]; simpl; [discriminate|]. intros ->.
  destruct (Str.starts_with Str.is_sep s) eqn:E; [now apply IH | reflexivity].
Qed.

Lemma fields_eq (s : string) :
  fields s
  = (if Str.truthy (hd "" (Str.re_split s)) then [hd "" (Str.re_split s)] else [])
      ++ filter Str.truthy (tl (Str.re_split s)).
Proof.
  unfold fields. pose proof (re_split_nonempty s) as N.
  destruct (Str.re_split s) as [|p ps]; [easy|]. simpl. now destruct (Str.truthy p).
Qed.

Lemma re_split_sep (c : ascii) (s : string) :
  Str.is_sep c = true ->
  hd "" (Str.re_split (String c s)) = ""
  /\ filter Str.truthy (tl (Str.re_split (String c s))) = fields s.
Proof.
  intros Hc. split; [now apply re_split_sep_first|].
  simpl. rewrite Hc. destruct (Str.starts_with Str.is_sep s) eqn:E; [|reflexivity].
  rewrite fields_eq, (re_split_sep_first s E). reflexivity.
Qed.

Lemma re_split_char (c : ascii) (s : string) :
  Str.is_sep c = false ->
  hd "" (Str.re_split (String c s)) = String c (hd "" (Str.re_split s))
  /\ tl (Str.re_split (String c s)) = tl (Str.re_split s).
Proof.
  intros Hc. simpl. rewrite Hc. pose proof (re_split_nonempty s) as N.
  destruct (Str.re_split s); [easy | now split].
Qed.

Lemma fields_sep (c : ascii) (s : string) :
  Str.is_sep c = true -> fields (String c s) = fields s.
Proof.
  intros Hc. rewrite (fields_eq (String c s)).
  destruct (re_split_sep c s Hc) as [-> ->]. reflexivity.
Qed.

(** Collapsing the whitespace runs changes no piece. *)
Lemma re_split_re_sub_ws (s : string) :
  hd "" (Str.re_split (Str.re_sub_ws s)) = hd "" (Str.re_split s)
  /\ filter Str.truthy (tl (Str.re_split (Str.re_sub_ws s)))
     = filter Str.truthy (tl (Str.re_split s)).
Proof.
  induction s as [|c s [IH1 IH2]]; [now split|].
  assert (F : fields (Str.re_sub_ws s) = fields s) by now rewrite !fields_eq, IH1, IH2.
  cbn [Str.re_sub_ws]. destruct (Str.is_space c) eqn:Ec.
  - pose proof (is_space_is_sep c Ec) as Hc.
    destruct (re_split_sep c s Hc) as [-> ->].
    destruct (Str.starts_with Str.is_space s) eqn:Es.
    + assert (Hs : Str.starts_with Str.is_sep s = true).
      { destruct s; [discriminate|]. now apply is_space_is_sep. }
      rewrite IH1, IH2, (fields_eq s), (re_split_sep_first s Hs). now split.
    + assert (Hb : Str.is_sep " " = true) by reflexivity.
      destruct (re_split_sep " " (Str.re_sub_ws s) Hb) as [-> ->]. now split.
  - destruct (Str.is_sep c) eqn:Hc.
    + destruct (re_split_sep c s Hc) as [-> ->].
      destruct (re_split_sep c (Str.re_sub_ws s) Hc) as [-> ->]. now split.
    + destruct (re_split_char c s Hc) as [-> ->].
      destruct (re_split_char c (Str.re_sub_ws s) Hc) as [-> ->]. now rewrite IH1, IH2.
Qed.

Lemma fields_re_sub_ws (s : string) : fields (Str.re_sub_ws s) = fields s.
Proof. rewrite !fields_eq. destruct (re_split_re_sub_ws s) as [-> ->]. reflexivity. Qed.

Lemma fields_lstrip (s : string) : fields (Str.lstrip s) = fields s.
Proof.
  induction s as [|c s IH]; [reflexivity|]. cbn [Str.lstrip].
  destruct (Str.is_space c) eqn:Ec; [|reflexivity].
  now rewrite IH, (fields_sep c s (is_space_is_sep c Ec)).
Qed.

(** Trailing whitespace adds no piece. *)
Lemma re_split_rstrip (s : string) :
  hd "" (Str.re_split (Str.rstrip s)) = hd "" (Str.re_split s)
  /\ filter Str.truthy (tl (Str.re_split (Str.rstrip s)))
     = filter Str.truthy (tl (Str.re_split s)).
Proof.
  induction s as [|c s [IH1 IH2]]; [now split|].
  assert (F : fields (Str.rstrip s) = fields s) by now rewrite !fields_eq, IH1, IH2.
  cbn [Str.rstrip]. destruct (Str.rstrip s) as [|d r] eqn:E.
  - destruct (Str.is_space c) eqn:Ec.
    + destruct (re_split_sep c s (is_space_is_sep c Ec)) as [-> ->].
      rewrite <- F. now split.
    + destruct (Str.is_sep c) eqn:Hc.
      * destruct (re_split_sep c s Hc) as [-> ->].
        destruct (re_split_sep c "" Hc) as [-> ->]. rewrite <- F. now split.
      * destruct (re_split_char c s Hc) as [-> ->].
        destruct (re_split_char c "" Hc) as [-> ->]. rewrite <- IH1, <- IH2. now split.
  - destruct (Str.is_sep c) eqn:Hc.
    + destruct (re_split_sep c s Hc) as [-> ->].
      destruct (re_split_sep c (String d r) Hc) as [-> ->]. now split.
    + destruct (re_split_char c s Hc) as [-> ->].
      destruct (re_split_char c (String d r) Hc) as [-> ->]. now rewrite IH1, IH2.
Qed.

Lemma fields_strip (s : string) : fields (Str.strip s) = fields s.
Proof.
  unfold Str.strip. rewrite (fields_eq (Str.rstrip _)).
  destruct (re_split_rstrip (Str.lstrip s)) as [-> ->].
  rewrite <- fields_eq. apply fields_lstrip.
Qed.

Lemma extract_adjectives_fields (v : string) :
  extract_adjectives (Some v) = fields (Str.lower v).
Proof.
  unfold extract_adjectives. rewrite strip_pieces by apply re_split_not_sep.
  fold (fields (normalize v)). unfold normalize.
  now rewrite fields_re_sub_ws, fields_strip.
Qed.

(** X7. On any field that is not missing, normalized or not, the splitter
    returns the words of the lowercased text: the non-empty substrings
    delimited by runs of commas, semicolons and whitespace, in their
    order.  Extra or surrounding whitespace and the case of the letters
    do not change the candidates. *)
Theorem extract_adjectives_raw (v : string) :
  spec_split (Str.lower v) (extract_adjectives (Some v))
  /\ extract_adjectives (Some (normalize v)) = extract_adjectives (Some v)
  /\ extract_adjectives (Some (Str.lower v)) = extract_adjectives (Some v).
Proof.
  rewrite !extract_adjectives_fields. split; [apply re_split_words|].
  split.
  - rewrite lower_normalize. unfold normalize.
    now rewrite fields_re_sub_ws, fields_strip.
  - now rewrite lower_idem.
Qed.

Lemma re_split_lower (s : string) :
  map Str.lower (Str.re_split s) = Str.re_split (Str.lower s).
Proof.
  induction s as [|c s IH]; [reflexivity|]. cbn [Str.lower Str.re_split].
  rewrite is_sep_lower_char.
  assert (E : Str.starts_with Str.is_sep (Str.lower s) = Str.starts_with Str.is_sep s).
  { destruct s; [reflexivity|]. apply is_sep_lower_char. }
  rewrite E, <- IH.
  destruct (Str.is_sep c); [now destruct (Str.starts_with Str.is_sep s)|].
  now destruct (Str.re_split s).
Qed.

(** X8. Every candidate that the splitter returns is non-empty, contains
    no comma, semicolon or whitespace, and is in lower case. *)
Theorem extract_adjectives_candidates (field : cell) :
  Forall (fun candidate =>
            candidate <> ""
            /\ all_chars not_sep candidate = true
            /\ Str.lower candidate = candidate)
         (extract_adjectives field).
Proof.
  destruct field as [v|]; [|constructor].
  rewrite extract_adjectives_fields. unfold fields.
  apply Forall_forall. intros p Hp. apply filter_In in Hp as [Hp Ht].
  split; [now destruct p|]. split.
  - pose proof (re_split_not_sep (Str.lower v)) as H. rewrite Forall_forall in H. auto.
  - rewrite <- (lower_idem v), <- re_split_lower in Hp.
    apply in_map_iff in Hp as (q & <- & _). apply lower_idem.
Qed.

(** *** What the loop accumulates *)

Section Accumulation.

Variable nlp : string -> list Token.

Lemma stimulus_columns_value :
  stimulus_columns
  = [("Image_1", ("Description_1", "Adjectives_1")); ("Image_2", ("Description_2", "Adjectives_2"));
     ("Image_3", ("Description_3", "Adjectives_3")); ("Image_4", ("Description_4", "Adjectives_4"));
     ("Image_5", ("Description_5", "Adjectives_5")); ("Image_6", ("Description_6", "Adjectives_6"))].
Proof. reflexivity. Qed.

Lemma included_columns_value :
  included_columns
  = [("Description_1", "Adjectives_1"); ("Description_3", "Adjectives_3");
     ("Description_4", "Adjectives_4"); ("Description_5", "Adjectives_5");
     ("Description_6", "Adjectives_6")].
Proof. reflexivity. Qed.

Lemma valid_adjectives_missing (field : cell) :
  isna field = true -> valid_adjectives nlp field = [].
Proof. destruct field; [discriminate | reflexivity]. Qed.

(** One row adds to the entry of each image what it says about that
    stimulus. *)
Lemma process_row_image (row : Row) (st : State) (key dc ac : string) :
  In (key, (dc, ac)) stimulus_columns ->
  dict_get key (image_results (process_row nlp st row))
  = option_map
      (fun r => Res.mk (Res.all_tokens r ++ tokenize_description nlp (row dc))
                       (Res.adjectives r ++ valid_adjectives nlp (row ac))
                       (Res.nouns r ++ extract_nouns nlp (row dc)))
      (dict_get key (image_results st)).
Proof.
  rewrite stimulus_columns_value. intros H. simpl in H.
  repeat match type of H with
         | _ \/ _ => destruct H as [H|H]
         | False => contradiction
         end; injection H as <- <- <-;
    unfold process_row, valid_adjectives; rewrite enumerate_image_pairs;
    cbn [fold_left]; now rewrite !process_cell_image_get.
Qed.

Lemma fold_rows_image (data : list Row) (st : State) (key dc ac : string) :
  In (key, (dc, ac)) stimulus_columns ->
  dict_get key (image_results (fold_left (process_row nlp) data st))
  = option_map
      (fun r => Res.mk (Res.all_tokens r ++ Res.all_tokens (gathered nlp data dc ac))
                       (Res.adjectives r ++ Res.adjectives (gathered nlp data dc ac))
                       (Res.nouns r ++ Res.nouns (gathered nlp data dc ac)))
      (dict_get key (image_results st)).
Proof.
  intros H. revert st.
  induction data as [|row data IH]; intros st; cbn [fold_left gathered flat_map Res.all_tokens
                                                     Res.adjectives Res.nouns].
  - destruct (dict_get key (image_results st)) as [[t a n]|]; [|reflexivity].
    cbn. now rewrite !app_nil_r.
  - rewrite IH, (process_row_image row st key dc ac H).
    destruct (dict_get key (image_results st)) as [[t a n]|]; [|reflexivity].
    cbn. now rewrite !app_assoc.
Qed.

Lemma image_results_gathered (data : list Row) (key dc ac : string) :
  In (key, (dc, ac)) stimulus_columns ->
  dict_get key (image_results (run nlp data)) = Some (gathered nlp data dc ac).
Proof.
  intros H. unfold run. rewrite (fold_rows_image data init_state key dc ac H).
  rewrite stimulus_columns_value in H. simpl in H.
  repeat match type of H with
         | _ \/ _ => destruct H as [H|H]
         | False => contradiction
         end; injection H as <- <- <-; reflexivity.
Qed.

End Accumulation.

(** X9. After the row loop, the entry of each of the six images holds
    what the rows say about that stimulus, in row order: the tokens and
    the nouns of its description cells and the validated adjectives of
    its adjective cells.  A missing cell adds nothing. *)
Theorem image_results_closed_form (nlp : string -> list Token) (data : list Row) :
  Forall (fun sc => dict_get (fst sc) (image_results (run nlp data))
                    = Some (gathered nlp data (fst (snd sc)) (snd (snd sc))))
         stimulus_columns.
Proof.
  apply Forall_forall. intros [key [dc ac]] H. now apply image_results_gathered.
Qed.

Section Rollup.

Variable nlp : string -> list Token.

Lemma process_cell_all_adjectives_valid (row : Row) (i : nat) (dc ac : string) (st : State) :
  all_adjectives (process_cell nlp row (i, (dc, ac)) st)
  = if i =? 1 then all_adjectives st
    else all_adjectives st ++ valid_adjectives nlp (row ac).
Proof.
  rewrite process_cell_all_adjectives. fold (valid_adjectives nlp (row ac)).
  destruct (isna (row ac)) eqn:E; [|reflexivity].
  rewrite valid_adjectives_missing by exact E. cbn [orb]. rewrite app_nil_r.
  now destruct (i =? 1).
Qed.

(** One row adds to the three overall streams what it says about the
    five included stimuli, in the order of the columns. *)
Lemma process_row_streams (row : Row) (st : State) :
  all_tokens (process_row nlp st row)
  = all_tokens st
    ++ flat_map (fun c => tokenize_description nlp (row (fst c))) included_columns
  /\ all_adjectives (process_row nlp st row)
     = all_adjectives st
       ++ flat_map (fun c => valid_adjectives nlp (row (snd c))) included_columns
  /\ all_nouns (process_row nlp st row)
     = all_nouns st ++ flat_map (fun c => extract_nouns nlp (row (fst c))) included_columns.
Proof.
  unfold process_row. rewrite enumerate_image_pairs, included_columns_value.
  cbn [fold_left flat_map fst snd].
  rewrite !process_cell_all_tokens, !process_cell_all_adjectives_valid,
    !process_cell_all_nouns.
  cbn [Nat.eqb]. now rewrite !app_nil_r, <- !app_assoc.
Qed.

Lemma fold_rows_streams (data : list Row) (st : State) :
  all_tokens (fold_left (process_row nlp) data st)
  = all_tokens st
    ++ flat_map (fun row => flat_map (fun c => tokenize_description nlp (row (fst c)))
                                     included_columns) data
  /\ all_adjectives (fold_left (process_row nlp) data st)
     = all_adjectives st
       ++ flat_map (fun row => flat_map (fun c => valid_adjectives nlp (row (snd c)))
                                        included_columns) data
  /\ all_nouns (fold_left (process_row nlp) data st)
     = all_nouns st
       ++ flat_map (fun row => flat_map (fun c => extract_nouns nlp (row (fst c)))
                                        included_columns) data.
Proof.
  revert st. induction data as [|row data IH]; intros st; cbn [fold_left flat_map].
  - now rewrite !app_nil_r.
  - destruct (IH (process_row nlp st row)) as (-> & -> & ->).
    destruct (process_row_streams row st) as (-> & -> & ->).
    now rewrite <- !app_assoc.
Qed.

End Rollup.

Lemma run_streams (nlp : string -> list Token) (data : list Row) :
  all_tokens (run nlp data)
  = flat_map (fun row => flat_map (fun c => tokenize_description nlp (row (fst c)))
                                  included_columns) data
  /\ all_adjectives (run nlp data)
     = flat_map (fun row => flat_map (fun c => valid_adjectives nlp (row (snd c)))
                                     included_columns) data
  /\ all_nouns (run nlp data)
     = flat_map (fun row => flat_map (fun c => extract_nouns nlp (row (fst c)))
                                     included_columns) data.
Proof.
  unfold run. destruct (fold_rows_streams nlp data init_state) as (E1 & E2 & E3).
  rewrite E1, E2, E3. repeat split.
Qed.

(** X10. After the row loop, each overall stream is, row after row, what
    the row says about the five included stimuli (1, 3, 4, 5, 6 in this
    order): the tokens of their descriptions, the validated adjectives of
    their adjective cells, the nouns of their descriptions. *)
Theorem overall_streams_closed_form (nlp : string -> list Token) (data : list Row) :
  all_tokens (run nlp data)
  = flat_map (fun row => flat_map (fun c => tokenize_description nlp (row (fst c)))
                                  included_columns) data
  /\ all_adjectives (run nlp data)
     = flat_map (fun row => flat_map (fun c => valid_adjectives nlp (row (snd c)))
                                     included_columns) data
  /\ all_nouns (run nlp data)
     = flat_map (fun row => flat_map (fun c => extract_nouns nlp (row (fst c)))
                                     included_columns) data.
Proof. unfold run. destruct (fold_rows_streams nlp data init_state) as (-> & -> & ->). auto. Qed.

(** *** What the counters count *)

Section Counting.

Variable nlp : string -> list Token.

Lemma adj_keys_cell (row : Row) (i : nat) (dc ac : string) (st : State) :
  dict_keys (adj_stats (process_cell nlp row (i, (dc, ac)) st)) = dict_keys (adj_stats st).
Proof. apply process_cell_keys. Qed.

(** One cell and the counters of a column [col]. *)
Lemma process_cell_stats (row : Row) (i : nat) (dc ac : string) (st : State) (col : string) :
  In ac (dict_keys (adj_stats st)) ->
  cells_of col (process_cell nlp row (i, (dc, ac)) st)
  = cells_of col st + (if String.eqb col ac then Nat.b2n (processed ac row) else 0)
  /\ valid_cells_of col (process_cell nlp row (i, (dc, ac)) st)
     = valid_cells_of col st
       + (if String.eqb col ac then Nat.b2n (yields_adjective nlp ac row) else 0).
Proof.
  intros (s & Hs)%dict_get_present.
  unfold cells_of, valid_cells_of, processed, yields_adjective, valid_adjectives.
  rewrite process_cell_adj_stats.
  destruct (row ac) as [v|] eqn:Er; cbn [isna negb].
  - destruct (nonempty (filter_adjectives nlp (extract_adjectives (Some v))));
      rewrite !dict_get_alter;
      destruct (String.eqb_spec col ac) as [->|N];
      rewrite ?String.eqb_refl, ?Hs; cbn; split; lia.
  - cbn. destruct (String.eqb col ac); split; lia.
Qed.

(** One cell and the counters of the roll-up. *)
Lemma process_cell_overall_stats (row : Row) (i : nat) (dc ac : string) (st : State) :
  overall_adj_cells (process_cell nlp row (i, (dc, ac)) st)
  = overall_adj_cells st + (if i =? 1 then 0 else Nat.b2n (processed ac row))
  /\ overall_adj_valid_cells (process_cell nlp row (i, (dc, ac)) st)
     = overall_adj_valid_cells st
       + (if i =? 1 then 0 else Nat.b2n (yields_adjective nlp ac row)).
Proof.
  rewrite process_cell_overall_adj_cells, process_cell_overall_adj_valid_cells.
  unfold processed, yields_adjective, valid_adjectives.
  destruct (row ac) as [v|]; cbn [isna negb orb];
    destruct (i =? 1); cbn; [split; lia| |split; lia|split; lia].
  destruct (nonempty _); cbn; split; lia.
Qed.

Ltac cell_stats Hk :=
  repeat (rewrite (fun r i dc ac s c H => proj1 (process_cell_stats r i dc ac s c H))
           by (rewrite ?adj_keys_cell, Hk; simpl; tauto));
  repeat (rewrite (fun r i dc ac s c H => proj2 (process_cell_stats r i dc ac s c H))
           by (rewrite ?adj_keys_cell, Hk; simpl; tauto)).

(** One row and the counters: each column counts its own cell, the
    roll-up the cells of the five included columns. *)
Lemma process_row_stats (row : Row) (st : State) (col : string) :
  dict_keys (adj_stats st) = adj_cols ->
  In col adj_cols ->
  cells_of col (process_row nlp st row) = cells_of col st + Nat.b2n (processed col row)
  /\ valid_cells_of col (process_row nlp st row)
     = valid_cells_of col st + Nat.b2n (yields_adjective nlp col row).
Proof.
  intros Hk Hc. unfold process_row. rewrite enumerate_image_pairs. cbn [fold_left].
  simpl in Hc.
  repeat match type of Hc with
         | _ \/ _ => destruct Hc as [Hc|Hc]
         | False => contradiction
         end; subst col; cell_stats Hk; cbn [String.eqb Ascii.eqb Bool.eqb]; split; lia.
Qed.

Lemma process_row_overall_stats (row : Row) (st : State) :
  overall_adj_cells (process_row nlp st row)
  = overall_adj_cells st
    + list_sum (map (fun c => Nat.b2n (processed (snd c) row)) included_columns)
  /\ overall_adj_valid_cells (process_row nlp st row)
     = overall_adj_valid_cells st
       + list_sum (map (fun c => Nat.b2n (yields_adjective nlp (snd c) row)) included_columns).
Proof.
  unfold process_row. rewrite enumerate_image_pairs, included_columns_value.
  cbn [fold_left map list_sum fold_right snd].
  repeat match goal with
         | |- context [overall_adj_cells (process_cell nlp ?r (?i, (?dc, ?ac)) ?s)] =>
             rewrite (proj1 (process_cell_overall_stats r i dc ac s))
         | |- context [overall_adj_valid_cells (process_cell nlp ?r (?i, (?dc, ?ac)) ?s)] =>
             rewrite (proj2 (process_cell_overall_stats r i dc ac s))
         end.
  cbn [Nat.eqb]. split; lia.
Qed.

Lemma process_row_adj_keys (row : Row) (st : State) :
  dict_keys (adj_stats (process_row nlp st row)) = dict_keys (adj_stats st).
Proof. rewrite <- run_cells_row. apply run_cells_keys. Qed.

Lemma count_rows_cons (p : Row -> bool) (row : Row) (data : list Row) :
  count_rows p (row :: data) = Nat.b2n (p row) + count_rows p data.
Proof. unfold count_rows. simpl. now destruct (p row). Qed.

Lemma fold_rows_stats (data : list Row) (st : State) (col : string) :
  dict_keys (adj_stats st) = adj_cols ->
  In col adj_cols ->
  cells_of col (fold_left (process_row nlp) data st)
  = cells_of col st + count_rows (processed col) data
  /\ valid_cells_of col (fold_left (process_row nlp) data st)
     = valid_cells_of col st + count_rows (yields_adjective nlp col) data.
Proof.
  intros Hk Hc. revert st Hk.
  induction data as [|row data IH]; intros st Hk; cbn [fold_left].
  - unfold count_rows. simpl. split; lia.
  - destruct (IH (process_row nlp st row)) as [-> ->];
      [now rewrite process_row_adj_keys|].
    destruct (process_row_stats row st col Hk Hc) as [-> ->].
    rewrite !count_rows_cons. split; lia.
Qed.

Lemma fold_rows_overall_stats (data : list Row) (st : State) :
  overall_adj_cells (fold_left (process_row nlp) data st)
  = overall_adj_cells st
    + list_sum (map (fun c => count_rows (processed (snd c)) data) included_columns)
  /\ overall_adj_valid_cells (fold_left (process_row nlp) data st)
     = overall_adj_valid_cells st
       + list_sum (map (fun c => count_rows (yields_adjective nlp (snd c)) data)
                       included_columns).
Proof.
  revert st. induction data as [|row data IH]; intros st; cbn [fold_left].
  - rewrite included_columns_value. unfold count_rows. simpl. split; lia.
  - destruct (IH (process_row nlp st row)) as [-> ->].
    destruct (process_row_overall_stats row st) as [-> ->].
    rewrite included_columns_value. cbn [map list_sum fold_right snd].
    rewrite !count_rows_cons. split; lia.
Qed.

End Counting.

Lemma run_counters (nlp : string -> list Token) (data : list Row) :
  (forall col, In col adj_cols ->
     cells_of col (run nlp data) = count_rows (processed col) data
     /\ valid_cells_of col (run nlp data) = count_rows (yields_adjective nlp col) data)
  /\ overall_adj_cells (run nlp data)
     = list_sum (map (fun c => count_rows (processed (snd c)) data) included_columns)
  /\ overall_adj_valid_cells (run nlp data)
     = list_sum (map (fun c => count_rows (yields_adjective nlp (snd c)) data)
                     included_columns).
Proof.
  split.
  - intros col Hc. unfold run.
    destruct (fold_rows_stats nlp data init_state col eq_refl Hc) as [E1 E2].
    rewrite E1, E2. simpl in Hc.
    repeat match type of Hc with
           | _ \/ _ => destruct Hc as [Hc|Hc]
           | False => contradiction
           end; subst col; split; reflexivity.
  - unfold run. destruct (fold_rows_overall_stats nlp data init_state) as [E1 E2].
    rewrite E1, E2. split; reflexivity.
Qed.

(** X11. After the row loop, the cells counter of each adjective column
    is the number of rows whose cell in that column is not missing, and
    its valid_cells counter is the number of rows whose cell yields at
    least one validated adjective; the two overall counters are the sums
    of these numbers over the five included columns. *)
Theorem counters_closed_form (nlp : string -> list Token) (data : list Row) :
  Forall (fun col =>
            cells_of col (run nlp data) = count_rows (processed col) data
            /\ valid_cells_of col (run nlp data) = count_rows (yields_adjective nlp col) data)
         adj_cols
  /\ overall_adj_cells (run nlp data)
     = list_sum (map (fun c => count_rows (processed (snd c)) data) included_columns)
  /\ overall_adj_valid_cells (run nlp data)
     = list_sum (map (fun c => count_rows (yields_adjective nlp (snd c)) data)
                     included_columns).
Proof.
  split.
  - apply Forall_forall. intros col Hc. unfold run.
    destruct (fold_rows_stats nlp data init_state col eq_refl Hc) as [-> ->].
    simpl in Hc.
    repeat match type of Hc with
           | _ \/ _ => destruct Hc as [Hc|Hc]
           | False => contradiction
           end; subst col; split; reflexivity.
  - unfold run. destruct (fold_rows_overall_stats nlp data init_state) as [-> ->].
    split; reflexivity.
Qed.

Lemma yields_le_adjectives (nlp : string -> list Token) (ac : string) (data : list Row) :
  count_rows (yields_adjective nlp ac) data
  <= length (flat_map (fun row => valid_adjectives nlp (row ac)) data).
Proof.
  induction data as [|row data IH]; [apply Nat.le_refl|].
  rewrite count_rows_cons. cbn [flat_map]. rewrite length_app.
  unfold yields_adjective at 1. destruct (valid_adjectives nlp (row ac)); simpl; lia.
Qed.

Lemma count_rows_le (p : Row -> bool) (data : list Row) : count_rows p data <= length data.
Proof. unfold count_rows. apply filter_length_le. Qed.

(** X12. In the final report the overall valid-cell counter is the sum of
    the valid_cells counters of the five included columns; no counter of
    a column exceeds the number of rows, the overall one five times that
    number; and an image has at least as many accumulated adjectives as
    its column has valid cells. *)
Theorem counters_bounds (nlp : string -> list Token) (data : list Row) :
  overall_adj_valid_cells (run nlp data)
  = valid_cells_of "Adjectives_1" (run nlp data) + valid_cells_of "Adjectives_3" (run nlp data)
    + valid_cells_of "Adjectives_4" (run nlp data) + valid_cells_of "Adjectives_5" (run nlp data)
    + valid_cells_of "Adjectives_6" (run nlp data)
  /\ Forall (fun col => cells_of col (run nlp data) <= length data) adj_cols
  /\ overall_adj_cells (run nlp data) <= 5 * length data
  /\ Forall (fun sc => valid_cells_of (snd (snd sc)) (run nlp data)
                       <= length (Res.adjectives (gathered nlp data (fst (snd sc))
                                                           (snd (snd sc)))))
            stimulus_columns.
Proof.
  destruct (run_counters nlp data) as (C & Ho & Hv).
  split; [|split; [|split]].
  - rewrite Hv, included_columns_value. cbn [map list_sum fold_right snd].
    rewrite !(fun col H => proj2 (C col H)) by (simpl; tauto). lia.
  - apply Forall_forall. intros col H. rewrite (proj1 (C col H)). apply count_rows_le.
  - rewrite Ho, included_columns_value. cbn [map list_sum fold_right snd].
    pose proof (count_rows_le (processed "Adjectives_1") data).
    pose proof (count_rows_le (processed "Adjectives_3") data).
    pose proof (count_rows_le (processed "Adjectives_4") data).
    pose proof (count_rows_le (processed "Adjectives_5") data).
    pose proof (count_rows_le (processed "Adjectives_6") data). lia.
  - rewrite stimulus_columns_value.
    repeat constructor; cbn [fst snd gathered Res.adjectives];
      rewrite (fun col H => proj2 (C col H)) by (simpl; tauto);
      apply yields_le_adjectives.
Qed.

(** *** The overall tables and the tables of the images *)

Lemma counter_get_Counter (stream : list string) (elem : string) :
  counter_get elem (Counter stream) = count_occ string_dec stream elem.
Proof.
  unfold counter_get.
  destruct (in_dec string_dec elem stream) as [H|H].
  - apply (proj2 (Counter_keys_in stream elem)) in H. unfold dict_keys in H.
    apply in_map_iff in H as ([k n] & E & H). simpl in E. subst k.
    rewrite (dict_get_in elem n) by (auto using Counter_keys_nodup).
    pose proof (Counter_counts stream) as C. rewrite Forall_forall in C.
    exact (C _ H).
  - rewrite dict_get_absent by now rewrite Counter_keys_in.
    symmetry. now apply count_occ_not_In.
Qed.

Lemma count_occ_flat_map {A : Type} (f : A -> list string) (l : list A) (w : string) :
  count_occ string_dec (flat_map f l) w
  = list_sum (map (fun x => count_occ string_dec (f x) w) l).
Proof.
  induction l as [|x l IH]; [reflexivity|].
  cbn [flat_map map list_sum fold_right]. now rewrite count_occ_app, IH.
Qed.

Lemma dict_get_map {V W : Type} (f : V -> W) (k : string) (d : list (string * V)) :
  dict_get k (map (fun e => (fst e, f (snd e))) d) = option_map f (dict_get k d).
Proof.
  induction d as [|[k' v] d IH]; [reflexivity|]. simpl.
  destruct (String.eqb k k'); [reflexivity | exact IH].
Qed.

(** Summing over the rows and then over five columns, or the other way
    round. *)
Lemma sum_rows_columns {A : Type} (g : A -> string * string -> nat) (data : list A) :
  list_sum (map (fun row => list_sum (map (g row) included_columns)) data)
  = list_sum (map (fun c => list_sum (map (fun row => g row c) data)) included_columns).
Proof.
  rewrite included_columns_value.
  induction data as [|row data IH]; [reflexivity|].
  unfold list_sum in *. cbn [map fold_right] in IH |- *. lia.
Qed.

Lemma included_images_value :
  included_images = ["Image_1"; "Image_3"; "Image_4"; "Image_5"; "Image_6"].
Proof. reflexivity. Qed.

Section Union.

Variable nlp : string -> list Token.
Variable data : list Row.

Lemma image_count_gathered (table : Freq.t -> counter) (part : Res.t -> list string)
      (elem key dc ac : string) :
  (forall r, table (Freq.mk (Counter (Res.all_tokens r)) (Counter (Res.adjectives r))
                            (Counter (Res.nouns r)))
             = Counter (part r)) ->
  In (key, (dc, ac)) stimulus_columns ->
  image_count table (run nlp data) elem key
  = count_occ string_dec (part (gathered nlp data dc ac)) elem.
Proof.
  intros Ht H. unfold image_count, image_frequencies.
  rewrite (dict_get_map (fun r => Freq.mk (Counter (Res.all_tokens r))
                                          (Counter (Res.adjectives r))
                                          (Counter (Res.nouns r)))).
  rewrite (image_results_gathered nlp data key dc ac H). cbn [option_map].
  now rewrite Ht, counter_get_Counter.
Qed.

Ltac images_sum part :=
  rewrite included_images_value, included_columns_value;
  cbn [map list_sum fold_right];
  repeat match goal with
         | |- context [image_count ?t _ ?e ?k] =>
             erewrite (image_count_gathered t part e k)
               by (first [ reflexivity
                         | rewrite stimulus_columns_value; simpl; tauto ])
         end;
  cbn [gathered Res.all_tokens Res.adjectives Res.nouns];
  rewrite !count_occ_flat_map; cbn [fst snd]; reflexivity.

Lemma overall_word_count (elem : string) :
  counter_get elem (overall_description_word_freq (run nlp data))
  = list_sum (map (image_count Freq.description_word_freq (run nlp data) elem)
                  included_images).
Proof.
  unfold overall_description_word_freq. rewrite counter_get_Counter.
  rewrite (proj1 (run_streams nlp data)).
  rewrite count_occ_flat_map.
  rewrite (map_ext _ (fun row => list_sum (map (fun c =>
             count_occ string_dec (tokenize_description nlp (row (fst c))) elem)
             included_columns)))
    by (intros row; apply count_occ_flat_map).
  rewrite (sum_rows_columns
             (fun row c => count_occ string_dec (tokenize_description nlp (row (fst c))) elem)).
  images_sum Res.all_tokens.
Qed.

Lemma overall_adjective_count (elem : string) :
  counter_get elem (overall_adjective_freq (run nlp data))
  = list_sum (map (image_count Freq.adjective_freq (run nlp data) elem) included_images).
Proof.
  unfold overall_adjective_freq. rewrite counter_get_Counter.
  rewrite (proj1 (proj2 (run_streams nlp data))).
  rewrite count_occ_flat_map.
  rewrite (map_ext _ (fun row => list_sum (map (fun c =>
             count_occ string_dec (valid_adjectives nlp (row (snd c))) elem)
             included_columns)))
    by (intros row; apply count_occ_flat_map).
  rewrite (sum_rows_columns
             (fun row c => count_occ string_dec (valid_adjectives nlp (row (snd c))) elem)).
  images_sum Res.adjectives.
Qed.

Lemma overall_noun_count (elem : string) :
  counter_get elem (overall_noun_freq (run nlp data))
  = list_sum (map (image_count Freq.noun_freq (run nlp data) elem) included_images).
Proof.
  unfold overall_noun_freq. rewrite counter_get_Counter.
  rewrite (proj2 (proj2 (run_streams nlp data))).
  rewrite count_occ_flat_map.
  rewrite (map_ext _ (fun row => list_sum (map (fun c =>
             count_occ string_dec (extract_nouns nlp (row (fst c))) elem)
             included_columns)))
    by (intros row; apply count_occ_flat_map).
  rewrite (sum_rows_columns
             (fun row c => count_occ string_dec (extract_nouns nlp (row (fst c))) elem)).
  images_sum Res.nouns.
Qed.

End Union.

(** X13. In each of the three overall tables the count of an item is the
    sum of its counts in the corresponding tables of the five included
    images (Image_1, 3, 4, 5, 6); the table of Image_2 does not enter. *)
Theorem overall_counts_sum (nlp : string -> list Token) (data : list Row) (elem : string) :
  counter_get elem (overall_description_word_freq (run nlp data))
  = list_sum (map (image_count Freq.description_word_freq (run nlp data) elem)
                  included_images)
  /\ counter_get elem (overall_adjective_freq (run nlp data))
     = list_sum (map (image_count Freq.adjective_freq (run nlp data) elem) included_images)
  /\ counter_get elem (overall_noun_freq (run nlp data))
     = list_sum (map (image_count Freq.noun_freq (run nlp data) elem) included_images).
Proof.
  split; [apply overall_word_count|].
  split; [apply overall_adjective_count | apply overall_noun_count].
Qed.

(** *** The order of the rows *)

Lemma count_rows_perm (p : Row -> bool) (data data' : list Row) :
  Permutation data data' -> count_rows p data = count_rows p data'.
Proof.
  unfold count_rows. induction 1 as [|x l l' H IH|x y l|l l' l'' H1 IH1 H2 IH2]; simpl.
  - reflexivity.
  - destruct (p x); simpl; now rewrite IH.
  - destruct (p x), (p y); reflexivity.
  - now rewrite IH1.
Qed.

Lemma count_occ_flat_map_perm (f : Row -> list string) (data data' : list Row)
      (elem : string) :
  Permutation data data' ->
  count_occ string_dec (flat_map f data) elem = count_occ string_dec (flat_map f data') elem.
Proof.
  intros H. apply Permutation_count_occ. now apply Permutation_flat_map.
Qed.

(** X14. The order of the rows changes no number of the report: for two
    tables with the same rows in a different order, every item has the
    same count in each overall table and in each table of each image, and
    all per-column and overall cell counters agree.  (The order can only
    change how items of equal count are ranked.) *)
Theorem row_order_irrelevant (nlp : string -> list Token) (data data' : list Row) :
  Permutation data data' ->
  (forall elem,
      counter_get elem (overall_description_word_freq (run nlp data))
      = counter_get elem (overall_description_word_freq (run nlp data'))
      /\ counter_get elem (overall_adjective_freq (run nlp data))
         = counter_get elem (overall_adjective_freq (run nlp data'))
      /\ counter_get elem (overall_noun_freq (run nlp data))
         = counter_get elem (overall_noun_freq (run nlp data')))
  /\ Forall (fun sc => forall elem,
                 image_count Freq.description_word_freq (run nlp data) elem (fst sc)
                 = image_count Freq.description_word_freq (run nlp data') elem (fst sc)
                 /\ image_count Freq.adjective_freq (run nlp data) elem (fst sc)
                    = image_count Freq.adjective_freq (run nlp data') elem (fst sc)
                 /\ image_count Freq.noun_freq (run nlp data) elem (fst sc)
                    = image_count Freq.noun_freq (run nlp data') elem (fst sc))
            stimulus_columns
  /\ Forall (fun col => cells_of col (run nlp data) = cells_of col (run nlp data')
                        /\ valid_cells_of col (run nlp data)
                           = valid_cells_of col (run nlp data'))
            adj_cols
  /\ overall_adj_cells (run nlp data) = overall_adj_cells (run nlp data')
  /\ overall_adj_valid_cells (run nlp data) = overall_adj_valid_cells (run nlp data').
Proof.
  intros P. split; [|split; [|split]].
  - intros elem.
    unfold overall_description_word_freq, overall_adjective_freq, overall_noun_freq.
    rewrite !counter_get_Counter.
    destruct (run_streams nlp data) as (-> & -> & ->).
    destruct (run_streams nlp data') as (-> & -> & ->).
    auto using count_occ_flat_map_perm.
  - apply Forall_forall. intros [key [dc ac]] H elem. cbn [fst].
    rewrite !(image_count_gathered nlp data Freq.description_word_freq Res.all_tokens
                elem key dc ac), !(image_count_gathered nlp data' Freq.description_word_freq
                Res.all_tokens elem key dc ac) by (reflexivity || exact H).
    rewrite !(image_count_gathered nlp data Freq.adjective_freq Res.adjectives
                elem key dc ac), !(image_count_gathered nlp data' Freq.adjective_freq
                Res.adjectives elem key dc ac) by (reflexivity || exact H).
    rewrite !(image_count_gathered nlp data Freq.noun_freq Res.nouns
                elem key dc ac), !(image_count_gathered nlp data' Freq.noun_freq
                Res.nouns elem key dc ac) by (reflexivity || exact H).
    cbn [gathered Res.all_tokens Res.adjectives Res.nouns].
    auto using count_occ_flat_map_perm.
  - destruct (run_counters nlp data) as (Hc & _).
    destruct (run_counters nlp data') as (Hc' & _).
    apply Forall_forall. intros col H.
    destruct (Hc col H) as [-> ->]. destruct (Hc' col H) as [-> ->].
    split; now apply count_rows_perm.
  - destruct (run_counters nlp data) as (_ & -> & ->).
    destruct (run_counters nlp data') as (_ & -> & ->).
    rewrite included_columns_value. cbn [map list_sum fold_right snd].
    rewrite !(count_rows_perm _ data data' P). split; reflexivity.
Qed.

Lemma row_order_irrelevant_witness :
  overall_adj_cells (run Toy.toy_nlp [Toy.blank_row_1; Toy.numeric_row])
  = overall_adj_cells (run Toy.toy_nlp [Toy.numeric_row; Toy.blank_row_1]).
Proof.
  apply (row_order_irrelevant Toy.toy_nlp [Toy.blank_row_1; Toy.numeric_row]
           [Toy.numeric_row; Toy.blank_row_1]).
  apply perm_swap.
Defined.

(** *** Responses without any answer *)

Lemma dict_alter_id {V : Type} (f : V -> V) (k : string) (d : list (string * V)) :
  (forall v, f v = v) -> dict_alter f k d = d.
Proof.
  intros H. induction d as [|[k' v] d IH]; [reflexivity|]. simpl.
  destruct (String.eqb k k'); [now rewrite H | now rewrite IH].
Qed.

Lemma process_cell_missing (nlp : string -> list Token) (row : Row) (i : nat)
      (dc ac : string) (st : State) :
  row dc = None -> row ac = None ->
  process_cell nlp row (i, (dc, ac)) st = st.
Proof.
  intros Hd Ha. unfold process_cell. rewrite Hd, Ha.
  cbn [tokenize_description extract_nouns isna negb].
  unfold upd_image, extend_all_nouns, extend_all_tokens.
  rewrite !dict_alter_id
    by (intros [t a n]; unfold Res.extend_nouns, Res.extend_all_tokens; cbn;
        now rewrite app_nil_r).
  destruct st; destruct (i =? 1); cbn; now rewrite ?app_nil_r.
Qed.

Lemma process_row_unanswered (nlp : string -> list Token) (row : Row) (st : State) :
  unanswered row -> process_row nlp st row = st.
Proof.
  unfold unanswered. rewrite image_pairs_value. intros H.
  repeat match goal with
         | H : Forall _ (_ :: _) |- _ => inversion H; clear H; subst
         end.
  cbn [fst snd] in *.
  unfold process_row. rewrite enumerate_image_pairs. cbn [fold_left].
  repeat match goal with
         | H : _ /\ _ |- _ => destruct H
         end.
  now rewrite !process_cell_missing.
Qed.

(** X15. A response whose twelve description and adjective cells are all
    missing changes nothing: the loop leaves every accumulator as it was,
    and the final state is the same as if the row were not in the table,
    wherever it stands. *)
Theorem unanswered_row_ignored (nlp : string -> list Token) (row : Row)
        (before after : list Row) (st : State) :
  unanswered row ->
  process_row nlp st row = st
  /\ run nlp (before ++ row :: after) = run nlp (before ++ after).
Proof.
  intros H. split; [now apply process_row_unanswered|].
  unfold run. rewrite !fold_left_app. cbn [fold_left].
  now rewrite process_row_unanswered.
Qed.

Lemma unanswered_row_ignored_witness :
  run Toy.toy_nlp (Toy.table_a ++ Toy.row_of [] :: Toy.table_b)
  = run Toy.toy_nlp (Toy.table_a ++ Toy.table_b).
Proof.
  apply (unanswered_row_ignored Toy.toy_nlp (Toy.row_of []) Toy.table_a Toy.table_b
           init_state).
  repeat constructor.
Defined.

(** *** The exported frame *)

Lemma DataFrame_equal_lengths (d : list (string * list CsvValue)) (m : nat) :
  d <> [] ->
  Forall (fun c => length (snd c) = m) d ->
  DataFrame d
  = Some (dict_keys d, map (fun r => map (fun c => nth r (snd c) (CsvStr "")) d) (seq 0 m)).
Proof.
  intros N F. unfold DataFrame.
  assert (E : match d with [] => 0 | c :: _ => length (snd c) end = m).
  { destruct d as [|c d]; [easy|]. now inversion F. }
  rewrite E.
  assert (B : forallb (fun c => length (snd c) =? m) d = true).
  { apply forallb_forall. rewrite Forall_forall in F. intros c Hc.
    apply Nat.eqb_eq. auto. }
  now rewrite B.
Qed.

Lemma csv_data_shape (nlp : string -> list Token) (data : list Row) :
  dict_keys (csv_data (run nlp data)) = csv_columns
  /\ Forall (fun col => length (snd col) = max_rows (run nlp data)) (csv_data (run nlp data)).
Proof.
  assert (K : dict_keys (image_results (run nlp data)) = image_keys).
  { rewrite run_visits. apply keys_main. }
  assert (E : csv_data (run nlp data) = spec_csv (run nlp data)).
  { apply csv_data_spec. rewrite K. apply NoDup_csv_columns. }
  split.
  - rewrite E, spec_csv_keys, K. reflexivity.
  - rewrite E. apply spec_csv_lengths.
Qed.

(** X16. Building the frame from [csv_data] never fails: its columns
    always have one length.  The frame has the forty-two columns in the
    order of [csv_data], [max_rows] rows of forty-two values each, and
    its row [r] holds the entries of rank [r] of all columns. *)
Theorem csv_df_built (nlp : string -> list Token) (data : list Row) :
  csv_df (run nlp data)
  = Some (csv_columns,
          map (fun r => map (fun c => nth r (snd c) (CsvStr "")) (csv_data (run nlp data)))
              (seq 0 (max_rows (run nlp data))))
  /\ length (map (fun r => map (fun c => nth r (snd c) (CsvStr "")) (csv_data (run nlp data)))
                 (seq 0 (max_rows (run nlp data))))
     = max_rows (run nlp data)
  /\ Forall (fun row : list CsvValue => length row = 42)
            (map (fun r => map (fun c => nth r (snd c) (CsvStr "")) (csv_data (run nlp data)))
                 (seq 0 (max_rows (run nlp data)))).
Proof.
  destruct (csv_data_shape nlp data) as [K F].
  assert (L : length (csv_data (run nlp data)) = 42).
  { unfold dict_keys in K. now rewrite <- (length_map fst), K. }
  split; [|split].
  - unfold csv_df. rewrite (DataFrame_equal_lengths _ (max_rows (run nlp data))).
    + now rewrite K.
    + intros E. rewrite E in L. discriminate.
    + exact F.
  - now rewrite length_map, length_seq.
  - apply Forall_forall. intros row (r & <- & _)%in_map_iff. now rewrite length_map.
Qed.

(** *** The console report *)

Lemma console_column (st : State) (col : string) (s : Stat.t) :
  dict_get col (adj_stats st) = Some s ->
  match dict_get col (adj_stats st) with
  | Some stats => column_lines col (Stat.cells stats) (Stat.valid_cells stats)
  | None => []
  end
  = column_lines col (cells_of col st) (valid_cells_of col st).
Proof. intros H. unfold cells_of, valid_cells_of. now rewrite H. Qed.

Lemma flat_map_ext_on {A B : Type} (f g : A -> list B) (l : list A) :
  (forall x, In x l -> f x = g x) -> flat_map f l = flat_map g l.
Proof.
  induction l as [|x l IH]; intros H; [reflexivity|]. cbn [flat_map].
  rewrite (H x) by now left. rewrite IH; [reflexivity|]. intros; apply H; now right.
Qed.

(** X17. The console report lists the six adjective columns in the order
    Adjectives_1 to Adjectives_6, each with the number of rows whose cell
    is not missing and the number of rows whose cell yields a validated
    adjective, and then the two overall numbers, which are the sums of
    those of the five included columns. *)
Theorem console_report (nlp : string -> list Token) (data : list Row) :
  console (run nlp data)
  = [ (newline ++ "Adjective Column Statistics (cells processed and valid cells):")%string ]
    ++ flat_map (fun col => column_lines col (count_rows (processed col) data)
                                         (count_rows (yields_adjective nlp col) data))
                adj_cols
    ++ [ (newline ++ "Overall Adjective Statistics (from included images):")%string;
         ("  Cells processed: "
            ++ str_of_nat (list_sum (map (fun c => count_rows (processed (snd c)) data)
                                         included_columns)))%string;
         ("  Valid cells: "
            ++ str_of_nat (list_sum (map (fun c => count_rows (yields_adjective nlp (snd c)) data)
                                         included_columns)))%string ].
Proof.
  unfold console.
  assert (K : dict_keys (adj_stats (run nlp data)) = adj_cols).
  { rewrite run_visits. apply keys_main. }
  destruct (run_counters nlp data) as (C & -> & ->).
  rewrite K. change (sorted adj_cols) with adj_cols.
  f_equal. f_equal.
  apply flat_map_ext_on. intros col Hc.
  assert (P : In col (dict_keys (adj_stats (run nlp data)))) by now rewrite K.
  apply dict_get_present in P as (s & Hs).
  rewrite (console_column _ col s Hs). destruct (C col Hc) as [-> ->]. reflexivity.
Qed.

(** *** Tables processed one after the other *)

Lemma count_rows_app (p : Row -> bool) (d1 d2 : list Row) :
  count_rows p (d1 ++ d2) = count_rows p d1 + count_rows p d2.
Proof. unfold count_rows. now rewrite filter_app, length_app. Qed.

Lemma gathered_app (nlp : string -> list Token) (d1 d2 : list Row) (dc ac : string) :
  gathered nlp (d1 ++ d2) dc ac
  = Res.mk (Res.all_tokens (gathered nlp d1 dc ac) ++ Res.all_tokens (gathered nlp d2 dc ac))
           (Res.adjectives (gathered nlp d1 dc ac) ++ Res.adjectives (gathered nlp d2 dc ac))
           (Res.nouns (gathered nlp d1 dc ac) ++ Res.nouns (gathered nlp d2 dc ac)).
Proof. unfold gathered. cbn. now rewrite !flat_map_app. Qed.

(** X18. The loop only appends and adds: for a table made of two parts,
    each overall stream is the stream of the first part followed by the
    stream of the second, every counter is the sum of the counters of the
    two parts, and the entry of each image is the entry for the first
    part extended by the entry for the second.  Nothing accumulated is
    ever removed or reordered. *)
Theorem run_app (nlp : string -> list Token) (d1 d2 : list Row) :
  all_tokens (run nlp (d1 ++ d2)) = all_tokens (run nlp d1) ++ all_tokens (run nlp d2)
  /\ all_adjectives (run nlp (d1 ++ d2))
     = all_adjectives (run nlp d1) ++ all_adjectives (run nlp d2)
  /\ all_nouns (run nlp (d1 ++ d2)) = all_nouns (run nlp d1) ++ all_nouns (run nlp d2)
  /\ overall_adj_cells (run nlp (d1 ++ d2))
     = overall_adj_cells (run nlp d1) + overall_adj_cells (run nlp d2)
  /\ overall_adj_valid_cells (run nlp (d1 ++ d2))
     = overall_adj_valid_cells (run nlp d1) + overall_adj_valid_cells (run nlp d2)
  /\ Forall (fun col =>
               cells_of col (run nlp (d1 ++ d2))
               = cells_of col (run nlp d1) + cells_of col (run nlp d2)
               /\ valid_cells_of col (run nlp (d1 ++ d2))
                  = valid_cells_of col (run nlp d1) + valid_cells_of col (run nlp d2))
            adj_cols
  /\ Forall (fun sc =>
               exists r1 r2,
                 dict_get (fst sc) (image_results (run nlp d1)) = Some r1
                 /\ dict_get (fst sc) (image_results (run nlp d2)) = Some r2
                 /\ dict_get (fst sc) (image_results (run nlp (d1 ++ d2)))
                    = Some (Res.mk (Res.all_tokens r1 ++ Res.all_tokens r2)
                                   (Res.adjectives r1 ++ Res.adjectives r2)
                                   (Res.nouns r1 ++ Res.nouns r2)))
            stimulus_columns.
Proof.
  destruct (run_streams nlp (d1 ++ d2)) as (-> & -> & ->).
  destruct (run_streams nlp d1) as (-> & -> & ->).
  destruct (run_streams nlp d2) as (-> & -> & ->).
  rewrite !flat_map_app.
  destruct (run_counters nlp (d1 ++ d2)) as (C & -> & ->).
  destruct (run_counters nlp d1) as (C1 & -> & ->).
  destruct (run_counters nlp d2) as (C2 & -> & ->).
  repeat split.
  - rewrite included_columns_value. cbn [map list_sum fold_right snd].
    rewrite !count_rows_app. lia.
  - rewrite included_columns_value. cbn [map list_sum fold_right snd].
    rewrite !count_rows_app. lia.
  - apply Forall_forall. intros col H.
    destruct (C col H) as [-> ->]. destruct (C1 col H) as [-> ->].
    destruct (C2 col H) as [-> ->]. now rewrite !count_rows_app.
  - apply Forall_forall. intros [key [dc ac]] H. cbn [fst].
    exists (gathered nlp d1 dc ac), (gathered nlp d2 dc ac).
    rewrite !(image_results_gathered nlp _ key dc ac H).
    now rewrite gathered_app.
Qed.
